(** * Live events on a Nakama runtime: bucketed tournaments and reward payout

    A shallow embedding of [src/build/index.js] (the compiled module, with its
    TypeScript source appended): the reward lookup [getReward], the owner
    record sort [SortRecords], the tournament-end hook
    [distributeEventRewards] and the two RPCs [serverCreateLiveEventRpc] and
    [getBucketedTournamentRpc].

    JavaScript values are an inductive type with objects as finite maps;
    property access and [Math.round] follow ECMAScript.  The runtime's
    collaborators ([nk], [logger], [Date.now]) are oracles over an abstract
    host state; every call is appended to a trace, exceptions are explicit
    completions, and the one [while] loop runs on fuel. *)

From Stdlib Require Import ZArith QArith Qround Qabs Lqa Ascii String List Lia.
From Stdlib Require Import Permutation Sorted.
From stdpp Require Import base option list gmap strings pretty.

#[local] Set Warnings "-register-all".
#[local] Open Scope Z_scope.

(** ** JavaScript numbers

    A finite float64 is a rational, so a finite number carries its exact
    value as a [Q]; the model admits every rational, a superset of the
    doubles.  Negative zero is identified with zero. *)

Inductive number : Type :=
| NaN
| PosInfinity
| NegInfinity
| Fin (q : Q).

(** [Math.round(x)]: the integral number closest to [x], ties towards
    plus infinity; NaN and the infinities are returned as they are. *)
Definition round_half_up (q : Q) : Z := Qfloor (q + (1 # 2)).

Definition Math_round (x : number) : number :=
  match x with
  | Fin q => Fin (inject_Z (round_half_up q))
  | _ => x
  end.

(** A number that is a mathematical integer. *)
Definition is_integer (x : number) : Prop := exists z : Z, x = Fin (inject_Z z).

(** ** JavaScript values and exceptions *)

Inductive JsVal : Type :=
| JUndefined
| JNull
| JBool (b : bool)
| JNum (n : number)
| JStr (s : string)
| JArr (items : list JsVal)
| JObj (fields : gmap string JsVal).

(** Thrown values.  The engine raises [TypeError] and [SyntaxError], a
    collaborator raises a [GoError], and the module itself throws the two
    object literals [errInternal] and [errPermissionDenied]; each of them
    carries a [message]. *)
Inductive Error : Type :=
| TypeError (msg : string)
| SyntaxError (msg : string)
| GoError (msg : string)
| NkError (msg : string) (code : Z).

Definition message (e : Error) : string :=
  match e with
  | TypeError m | SyntaxError m | GoError m | NkError m _ => m
  end.

Definition errInternal : Error := NkError "Internal error" 13.
Definition errPermissionDenied : Error := NkError "Permission denied" 7.

(** The completion of a piece of code without side effects: a value, or
    an exception. *)
Inductive Completion (A : Type) : Type :=
| Normal (a : A)
| Abrupt (e : Error).
Arguments Normal {A} a.
Arguments Abrupt {A} e.

#[global] Instance Completion_ret : MRet Completion := @Normal.
#[global] Instance Completion_bind : MBind Completion := fun A B f c =>
  match c with
  | Normal a => f a
  | Abrupt e => Abrupt e
  end.
#[global] Instance Completion_throw : MThrow Error Completion := @Abrupt.

(** [v[k]] for a string key.  Reading a property of [undefined] or [null]
    is a TypeError; an object answers with its own property, or
    [undefined].  The keys this module reads ("rewards", "first", "second",
    "third", "rest", "coins", "id", "limit", "duration", "start_time") are
    neither array indices, nor "length", nor members of a built-in
    prototype, so on arrays and primitives they read as [undefined]. *)
Definition getProp (v : JsVal) (k : string) : Completion JsVal :=
  match v with
  | JUndefined =>
      Abrupt (TypeError ("Cannot read property '" ++ k ++ "' of undefined"))
  | JNull =>
      Abrupt (TypeError ("Cannot read property '" ++ k ++ "' of null"))
  | JObj fields => Normal (default JUndefined (fields !! k))
  | JBool _ | JNum _ | JStr _ | JArr _ => Normal JUndefined
  end.

Notation "v .[ k ]" := (getProp v k) (at level 1, left associativity, format "v .[ k ]").

(** ToBoolean. *)
Definition truthy (v : JsVal) : bool :=
  match v with
  | JUndefined | JNull => false
  | JBool b => b
  | JNum NaN => false
  | JNum (Fin q) => negb (Qeq_bool q 0)
  | JNum _ => true
  | JStr s => negb (String.eqb s EmptyString)
  | JArr _ | JObj _ => true
  end.

(** What is left to the JavaScript engine: ToNumber on strings, arrays and
    objects (the numeric-literal grammar and ToPrimitive), and the JSON
    parser. *)
Class Engine : Type := {
  ToNumber_engine : JsVal -> number;
  JSON_parse : string -> Completion JsVal
}.

Section Rewards.
Context `{Engine}.

Definition ToNumber (v : JsVal) : number :=
  match v with
  | JUndefined => NaN
  | JNull => Fin 0
  | JBool b => Fin (if b then 1 else 0)
  | JNum n => n
  | JStr _ | JArr _ | JObj _ => ToNumber_engine v
  end.

(** ** Reward lookup *)

Record Reward : Type := mkReward { coins : number }.

(** Helper function to choose the reward for a rank in the tournament.
    [None] is the source's [null]. *)
Definition getReward (rewards : JsVal) (rank score : Z) : Completion (option Reward) :=
  if score =? 0 then
    (* We do not give rewards to players who haven't scored anything. *)
    Normal None
  else
    match rank with
    | 1 =>
        tier ← rewards.["first"]; c ← tier.["coins"];
        mret (Some {| coins := Math_round (ToNumber c) |})
    | 2 =>
        tier ← rewards.["second"]; c ← tier.["coins"];
        mret (Some {| coins := Math_round (ToNumber c) |})
    | 3 =>
        tier ← rewards.["third"]; c ← tier.["coins"];
        mret (Some {| coins := Math_round (ToNumber c) |})
    | _ =>
        tier ← rewards.["rest"]; c ← tier.["coins"];
        mret (Some {| coins := Math_round (ToNumber c) |})
    end.

End Rewards.

(** ** Leaderboard records and their sort *)

(** The fields of [nkruntime.LeaderboardRecord] this module reads; the
    runtime fills [score] and [rank] from 64-bit integers. *)
Record LeaderboardRecord : Type := mkRecord {
  ownerId : string;
  score : Z;
  rank : Z
}.

(** [Array.prototype.sort] with a comparator: the stable sort, an element
    [a] staying before [b] unless [cmp a b > 0].  Insertion from the right
    end computes it. *)
Fixpoint sort_insert {A : Type} (cmp : A -> A -> Z) (a : A) (l : list A) : list A :=
  match l with
  | [] => [a]
  | b :: l' => if 0 <? cmp a b then b :: sort_insert cmp a l' else a :: b :: l'
  end.

Fixpoint Array_sort {A : Type} (cmp : A -> A -> Z) (l : list A) : list A :=
  match l with
  | [] => []
  | a :: l' => sort_insert cmp a (Array_sort cmp l')
  end.

(** The comparator of the sort: [(a, b) => b.score - a.score]. *)
Definition by_score (a b : LeaderboardRecord) : Z := score b - score a.

(** [record.rank = index + 1] *)
Definition set_rank (index : nat) (record : LeaderboardRecord) : LeaderboardRecord :=
  {| ownerId := ownerId record; score := score record; rank := Z.of_nat index + 1 |}.

(** Helper function to sort leaderboard records by descending scores;
    [None] is [undefined], which the optional chaining passes through.
    The array is sorted and re-ranked in place and returned. *)
Definition SortRecords (records : option (list LeaderboardRecord))
  : option (list LeaderboardRecord) :=
  (* Sort by score, desc *)
  let sorted := Array_sort by_score <$> records in
  (* Update its rank *)
  imap set_rank <$> sorted.

(** ** The runtime: collaborators, trace and exceptions *)

Record RecordList : Type := mkRecordList {
  records : option (list LeaderboardRecord);
  ownerRecords : option (list LeaderboardRecord);
  nextCursor : option string;
  prevCursor : option string
}.

(** The fields of [nkruntime.Tournament] this module reads; [metadata] is
    an object by its type. *)
Record Tournament : Type := mkTournament {
  id : string;
  title : string;
  metadata : gmap string JsVal;
  endActive : Z
}.

Record User : Type := mkUser { user_userId : string }.

(** Define the bucketed tournament storage object *)
Record UserBucketStorageObject : Type := mkBucket {
  resetTimeUnix : Z;
  userIds : list string
}.

Record StorageReadRequest : Type := mkRead {
  read_collection : string;
  read_key : string;
  read_userId : string
}.

Record StorageObject : Type := mkObject { value : UserBucketStorageObject }.

Record StorageWriteRequest : Type := mkWrite {
  write_collection : string;
  write_key : string;
  write_userId : string;
  write_value : UserBucketStorageObject;
  permissionRead : Z;
  permissionWrite : Z
}.

Record NotificationContent : Type := mkContent {
  event_name : string;
  reward : Reward;
  content_rank : Z
}.

Record NotificationRequest : Type := mkNotification {
  code : Z;
  content : NotificationContent;
  persistent : bool;
  subject : string;
  notification_userId : string
}.

Record WalletUpdate : Type := mkWalletUpdate {
  wallet_userId : string;
  changeset : Reward
}.

(** The arguments of [nk.tournamentCreate], in order. *)
Record TournamentCreate : Type := mkCreate {
  create_id : JsVal;
  authoritative : bool;
  sortOrder : string;
  operator : string;
  duration : JsVal;
  resetSchedule : JsVal;
  create_metadata : gmap string JsVal;
  create_title : JsVal;
  description : JsVal;
  category : Z;
  startTime : JsVal;
  endTime : Z;
  maxSize : JsVal;
  maxNumScore : JsVal;
  joinRequired : bool
}.

(** One entry of the trace per call that leaves the module.  A call's
    arguments are recorded as they are when the call is made: the runtime
    converts them before it returns and keeps no reference to them. *)
Inductive Call : Type :=
| LoggerDebug (format : string) (args : list string)
| LoggerError (format : string) (args : list string)
| DateNow
| TournamentRecordsList (tournamentId : JsVal) (ownerIds : list string) (limit : JsVal)
    (cursor : option string) (overrideExpiry : option Z)
| WalletsUpdate (updates : list WalletUpdate) (updateLedger : bool)
| NotificationsSend (notifications : list NotificationRequest)
| MetricsTimerRecord (name : string) (tags : gmap string string) (value : Z)
| TournamentCreateCall (args : TournamentCreate)
| StorageRead (reads : list StorageReadRequest)
| StorageWrite (writes : list StorageWriteRequest)
| TournamentsGetId (ids : list JsVal)
| UsersGetRandom (count : Z).

(** The collaborators, as oracles over a host state [W] of any type: each
    returns or throws, and moves the host to a next state.  A listing may
    also answer [null] ([None]). *)
Record Nakama (W : Type) : Type := mkNakama {
  clock : W -> Z * W;
  tournamentRecordsList :
    JsVal -> list string -> JsVal -> option string -> option Z ->
    W -> Completion (option RecordList) * W;
  walletsUpdate : list WalletUpdate -> bool -> W -> Completion unit * W;
  notificationsSend : list NotificationRequest -> W -> Completion unit * W;
  metricsTimerRecord : string -> gmap string string -> Z -> W -> Completion unit * W;
  tournamentCreate : TournamentCreate -> W -> Completion unit * W;
  storageRead : list StorageReadRequest -> W -> Completion (list StorageObject) * W;
  storageWrite : list StorageWriteRequest -> W -> Completion unit * W;
  tournamentsGetId : list JsVal -> W -> Completion (list Tournament) * W;
  usersGetRandom : Z -> W -> Completion (list User) * W
}.
Arguments clock {W} _ _.
Arguments tournamentRecordsList {W} _ _ _ _ _ _ _.
Arguments walletsUpdate {W} _ _ _ _.
Arguments notificationsSend {W} _ _ _.
Arguments metricsTimerRecord {W} _ _ _ _ _.
Arguments tournamentCreate {W} _ _ _.
Arguments storageRead {W} _ _ _.
Arguments storageWrite {W} _ _ _.
Arguments tournamentsGetId {W} _ _ _.
Arguments usersGetRandom {W} _ _ _.

(** The state of a run: the host, and the calls made so far, oldest
    first. *)
Record State (W : Type) : Type := mkState {
  host : W;
  trace : list Call
}.
Arguments mkState {W} _ _.
Arguments host {W} _.
Arguments trace {W} _.

(** How a run ends: it returns, it throws, or the fuel of its loop is
    spent. *)
Inductive Outcome (A : Type) : Type :=
| Returned (a : A)
| Thrown (e : Error)
| OutOfFuel.
Arguments Returned {A} a.
Arguments Thrown {A} e.
Arguments OutOfFuel {A}.

Definition Run (W A : Type) : Type := State W -> Outcome A * State W.

Section Monad.
Context {W : Type}.

#[global] Instance Run_ret : MRet (Run W) := fun A a s => (Returned a, s).
#[global] Instance Run_bind : MBind (Run W) := fun A B f m s =>
  match m s with
  | (Returned a, s') => f a s'
  | (Thrown e, s') => (Thrown e, s')
  | (OutOfFuel, s') => (OutOfFuel, s')
  end.

#[global] Instance Run_throw : MThrow Error (Run W) := fun A e s => (Thrown e, s).

Definition out_of_fuel {A : Type} : Run W A := fun s => (OutOfFuel, s).

Definition lift {A : Type} (c : Completion A) : Run W A :=
  match c with
  | Normal a => mret a
  | Abrupt e => mthrow e
  end.

(** [try { body } catch (error) { handler }] *)
Definition try_catch {A : Type} (body : Run W A) (handler : Error -> Run W A) : Run W A :=
  fun s =>
    match body s with
    | (Thrown e, s') => handler e s'
    | r => r
    end.

(** A call of a collaborator: recorded, then answered by the oracle. *)
Definition call {A : Type} (c : Call) (oracle : W -> Completion A * W) : Run W A :=
  fun s =>
    let '(r, w) := oracle (host s) in
    lift r (mkState w (trace s ++ [c])).

(** The logger only records. *)
Definition logger_debug (format : string) (args : list string) : Run W unit :=
  fun s => (Returned tt, mkState (host s) (trace s ++ [LoggerDebug format args])).

Definition logger_error (format : string) (args : list string) : Run W unit :=
  fun s => (Returned tt, mkState (host s) (trace s ++ [LoggerError format args])).

Definition Date_now (nk : Nakama W) : Run W Z :=
  call DateNow (fun w => let '(t, w') := clock nk w in (Normal t, w')).

End Monad.

(** ** The handlers *)

Record Context : Type := mkContext { userId : option string }.

(** [ctx.userId] as a value: a string, or [undefined]. *)
Definition userId_value (ctx : Context) : JsVal :=
  match userId ctx with
  | Some u => JStr u
  | None => JUndefined
  end.

(** The two arrays the scan fills. *)
Record Batches : Type := mkBatches {
  notifications : list NotificationRequest;
  walletUpdates : list WalletUpdate
}.

(** [l.forEach(f)], the callback threading the state it mutates and
    ending the iteration when it throws. *)
Fixpoint forEach {A S : Type} (f : A -> S -> Completion S) (l : list A) (s : S)
  : Completion S :=
  match l with
  | [] => mret s
  | a :: l' => s' ← f a s; forEach f l' s'
  end.

(** [results.records] and [records.ownerRecords = ...]: a property of the
    listing's answer, a TypeError when the answer is [null]. *)
Definition listing (results : option RecordList) : Completion RecordList :=
  match results with
  | Some r => mret r
  | None => mthrow (TypeError "Cannot read property 'records' of null")
  end.

Section Handlers.
Context `{Engine} {W : Type}.

(** The callback of the scan, on one record. *)
Definition rewardRecord (rewards : JsVal) (tournament : Tournament)
    (r : LeaderboardRecord) (b : Batches) : Completion Batches :=
  reward ← getReward rewards (rank r) (score r);
  match reward with
  | Some reward =>
      (* This player has received a reward.
         Update their wallet and send them a notification *)
      mret {|
        notifications := notifications b ++ [ {|
          code := 1;
          content := {| event_name := title tournament;
                        reward := reward;
                        content_rank := rank r |};
          persistent := true;
          subject := "event_reward";
          notification_userId := ownerId r |} ];
        walletUpdates := walletUpdates b ++ [ {|
          wallet_userId := ownerId r;
          changeset := reward |} ] |}
  | None => mret b
  end.

(** [while (cursor != undefined) { ... }]; [None] is the cursor that is
    [null] or [undefined], the scan starts from the empty string, and
    each iteration takes one unit of fuel. *)
Fixpoint scanRecords (fuel : nat) (nk : Nakama W) (rewards : JsVal)
    (tournament : Tournament) (reset : Z) (cursor : option string) (b : Batches)
  : Run W Batches :=
  match cursor with
  | None => mret b
  | Some c =>
      match fuel with
      | O => out_of_fuel
      | S fuel' =>
          (* Pass in the reset timestamp to override expiry date *)
          results ← call
            (TournamentRecordsList (JStr (id tournament)) [] (JNum (Fin 100)) (Some c) (Some reset))
            (tournamentRecordsList nk (JStr (id tournament)) [] (JNum (Fin 100)) (Some c) (Some reset));
          results ← lift (listing results);
          b' ← lift (match records results with
                     | Some rs => forEach (rewardRecord rewards tournament) rs b
                     | None => mret b
                     end);
          (* Set the pagination cursor to the next cursor returned by the call *)
          scanRecords fuel' nk rewards tournament reset (nextCursor results) b'
      end
  end.

(** The [try] block of [distributeEventRewards]. *)
Definition distribution (fuel : nat) (nk : Nakama W) (rewards : JsVal)
    (tournament : Tournament) (reset : Z) : Run W unit :=
  (* We'll report execution time as a custom metric. Mark the start time. *)
  startTime ← Date_now nk;
  (* Go over all records and assign rewards *)
  b ← scanRecords fuel nk rewards tournament reset (Some EmptyString) (mkBatches [] []);
  (* Submit the changes *)
  call (WalletsUpdate (walletUpdates b) true) (walletsUpdate nk (walletUpdates b) true);;
  call (NotificationsSend (notifications b)) (notificationsSend nk (notifications b));;
  logger_debug "%d players received rewards from the event %s"
    [pretty (length (walletUpdates b)); id tournament];;
  (* Calculate the execution time and report it *)
  endTime ← Date_now nk;
  let executionTime := endTime - startTime in
  call (MetricsTimerRecord "rewardDistributionElapsedTimeSec" ∅ executionTime)
    (metricsTimerRecord nk "rewardDistributionElapsedTimeSec" ∅ executionTime).

(** Our hook to distribute the event rewards when the event ends *)
Definition distributeEventRewards (fuel : nat) (ctx : Context) (nk : Nakama W)
    (tournament : Tournament) (end_ reset : Z) : Run W unit :=
  logger_debug "Distributing event rewards for %s" [id tournament];;
  (* Rewards are defined in a tournament's metadata during creation *)
  let rewards := default JUndefined (metadata tournament !! "rewards") in
  if negb (truthy rewards) then
    logger_debug "No rewards are defined for %s" [id tournament]
  else
    try_catch
      (distribution fuel nk rewards tournament reset)
      (fun error =>
         logger_error "Error while distributing rewards: %s" [message error]).

(** A server-to-server RPC to create/schedule a live event.  The result
    is the object that the source passes to [JSON.stringify]. *)
Definition serverCreateLiveEventRpc (ctx : Context) (nk : Nakama W) (payload : string)
  : Run W JsVal :=
  if truthy (userId_value ctx) then
    (* Reject client-to-server calls *)
    mthrow errPermissionDenied
  else
    try_catch
      ((* Parse the request payload *)
       message ← lift (JSON_parse payload);
       (* Set up the bucketed tournament *)
       id ← lift message.["id"];
       duration ← lift message.["duration"];
       rewards ← lift message.["rewards"];
       startTime ← lift message.["start_time"];
       let args := {|
         create_id := id;
         authoritative := false;
         sortOrder := "desc";
         operator := "incr";
         duration := duration;
         resetSchedule := JNull;
         create_metadata := {[ "rewards" := rewards ]};
         create_title := JNull;
         description := JNull;
         category := 1;
         startTime := startTime;
         endTime := 0;
         maxSize := JNull;
         maxNumScore := JNull;
         joinRequired := false |} in
       call (TournamentCreateCall args) (tournamentCreate nk args))
      (fun error =>
         logger_error "Error while creating tournament: %s" [message error];;
         mthrow errInternal);;
    mret (JObj {[ "success" := JBool true ]}).

(** [tournaments[0].endActive]: a TypeError when the array is empty. *)
Definition first_tournament (tournaments : list Tournament) : Completion Tournament :=
  match tournaments with
  | t :: _ => mret t
  | [] => mthrow (TypeError "Cannot read property 'endActive' of undefined")
  end.

Definition bucketSize : Z := 15.

(** [objects.length > 0 ? objects[0].value : { resetTimeUnix: 0, userIds: [] }] *)
Definition stored_bucket (objects : list StorageObject) : UserBucketStorageObject :=
  match objects with
  | o :: _ => value o
  | [] => {| resetTimeUnix := 0; userIds := [] |}
  end.

(** The test of the regeneration: the tournament has reset, or no
    current bucket exists for the user. *)
Definition stale (userBucket : UserBucketStorageObject) (tournament : Tournament) : bool :=
  negb (resetTimeUnix userBucket =? endActive tournament)
  || (Z.of_nat (length (userIds userBucket)) <? bucketSize).

(** The one read and the one write of the bucket of [self]: collection
    [buckets], key [bucket], owner-private. *)
Definition bucket_read (self : string) : list StorageReadRequest :=
  [ {| read_collection := "buckets"; read_key := "bucket"; read_userId := self |} ].

Definition bucket_write (self : string) (userBucket : UserBucketStorageObject)
  : list StorageWriteRequest :=
  [ {| write_collection := "buckets"; write_key := "bucket"; write_userId := self;
       write_value := userBucket; permissionRead := 0; permissionWrite := 0 |} ].

(** Return the records for a bucketed tournament.  The result is the
    object that the source passes to [JSON.stringify]. *)
Definition getBucketedTournamentRpc (ctx : Context) (nk : Nakama W) (payload : string)
  : Run W RecordList :=
  match userId ctx with
  | Some self =>
    if negb (truthy (JStr self)) then mthrow errPermissionDenied else
    try_catch
      ((* Parse the request payload *)
       message ← lift (JSON_parse payload);
       tournamentId ← lift message.["id"];
       limit ← lift message.["limit"];
       objects ← call (StorageRead (bucket_read self)) (storageRead nk (bucket_read self));
       (* Fetch any existing bucket or create one if none exist *)
       let userBucket := stored_bucket objects in
       (* Fetch the tournament *)
       tournaments ← call (TournamentsGetId [tournamentId]) (tournamentsGetId nk [tournamentId]);
       t0 ← lift (first_tournament tournaments);
       (* Tournament has reset or no current bucket exists for user *)
       userBucket ←
         (if stale userBucket t0 then
            logger_debug ("getBucketedTournamentRpc new bucket for " ++ self) [];;
            (* Clear the array in case it had some players from before *)
            users ← call (UsersGetRandom bucketSize) (usersGetRandom nk bucketSize);
            (* Set the Reset and Bucket end times to be in sync *)
            let userBucket := {| resetTimeUnix := endActive t0;
                                 userIds := user_userId <$> users |} in
            (* Store generated bucket for the user *)
            call (StorageWrite (bucket_write self userBucket))
              (storageWrite nk (bucket_write self userBucket));;
            mret userBucket
          else mret userBucket);
       (* Add self to the list of tournament records to fetch *)
       let userIds := userIds userBucket ++ [self] in
       (* Get the tournament records *)
       answer ← call (TournamentRecordsList tournamentId userIds limit None None)
                  (tournamentRecordsList nk tournamentId userIds limit None None);
       answer ← lift (listing answer);
       (* Owner records are not sorted *)
       mret {| records := records answer;
               ownerRecords := SortRecords (ownerRecords answer);
               nextCursor := nextCursor answer;
               prevCursor := prevCursor answer |})
      (fun error =>
         logger_error "Error while getting local tournaments: %s" [message error];;
         mthrow errInternal)
  | None =>
    (* Reject server-to-server call *)
    mthrow errPermissionDenied
  end.

End Handlers.

(** ** Vocabulary of the properties *)

(** The tier name a rank is paid from. *)
Definition tier_of_rank (rank : Z) : string :=
  if rank =? 1 then "first"
  else if rank =? 2 then "second"
  else if rank =? 3 then "third"
  else "rest".

(** The reward table configures [q] coins for [tier]. *)
Definition configured (rewards : JsVal) (tier : string) (q : Q) : Prop :=
  exists fields tier_fields,
    rewards = JObj fields /\
    fields !! tier = Some (JObj tier_fields) /\
    tier_fields !! "coins" = Some (JNum (Fin q)).

(** The reward table is an object without an entry for [tier]. *)
Definition omits (rewards : JsVal) (tier : string) : Prop :=
  exists fields, rewards = JObj fields /\ fields !! tier = None.

(** [z] is an integer nearest to [q]. *)
Definition nearest_integer (q : Q) (z : Z) : Prop :=
  forall z' : Z, (Qabs (q - inject_Z z) <= Qabs (q - inject_Z z'))%Q.



(** Records in descending order of score. *)
Definition above (a b : LeaderboardRecord) : Prop := score b <= score a.

Definition descending : list LeaderboardRecord -> Prop := Sorted above.

(** The ranks 1, 2, ..., n. *)
Definition ranks_upto (n : nat) : list Z := (fun i => Z.of_nat i + 1) <$> seq 0 n.

(** What a trace holds of each kind of call. *)
Definition storage_writes (tr : list Call) : list (list StorageWriteRequest) :=
  omap (fun c => match c with StorageWrite ws => Some ws | _ => None end) tr.

Definition samplings (tr : list Call) : list Z :=
  omap (fun c => match c with UsersGetRandom n => Some n | _ => None end) tr.

Definition cohorts (tr : list Call) : list (list string) :=
  omap (fun c => match c with
                 | TournamentRecordsList _ owners _ _ _ => Some owners
                 | _ => None
                 end) tr.

Definition is_listing (c : Call) : bool :=
  match c with TournamentRecordsList _ _ _ _ _ => true | _ => false end.

Definition page_requests (tr : list Call) : list Call := List.filter is_listing tr.

Definition wallet_batches (tr : list Call) : list (list WalletUpdate * bool) :=
  omap (fun c => match c with WalletsUpdate ups b => Some (ups, b) | _ => None end) tr.

Definition creations (tr : list Call) : list TournamentCreate :=
  omap (fun c => match c with TournamentCreateCall a => Some a | _ => None end) tr.

Section Payout.
Context `{Engine}.

(** The reward lookup returns, with or without a reward, on this record. *)
Definition decides (rewards : JsVal) (r : LeaderboardRecord) : bool :=
  match getReward rewards (rank r) (score r) with
  | Normal _ => true
  | Abrupt _ => false
  end.

(** The wallet update that a record earns, if it earns one. *)
Definition payout (rewards : JsVal) (r : LeaderboardRecord) : option WalletUpdate :=
  match getReward rewards (rank r) (score r) with
  | Normal (Some reward) =>
      Some {| wallet_userId := ownerId r; changeset := reward |}
  | _ => None
  end.

End Payout.

(** The pages a listing hands out when it is asked, from [cursor] on, for
    one page of 100 after the other with the reset epoch as expiry
    override, until it answers without a next cursor: each page with the
    cursor it was asked by.  The host moves from [w] to [w']. *)
Inductive Pages {W : Type} (nk : Nakama W) (tournamentId : string) (reset : Z)
  : option string -> W -> list (string * list LeaderboardRecord) -> W -> Prop :=
| Pages_exhausted (w : W) :
    Pages nk tournamentId reset None w [] w
| Pages_page (c : string) (w w' w'' : W) (answer : RecordList)
    (rest : list (string * list LeaderboardRecord)) :
    tournamentRecordsList nk (JStr tournamentId) [] (JNum (Fin 100)) (Some c) (Some reset) w
      = (Normal (Some answer), w') ->
    Pages nk tournamentId reset (nextCursor answer) w' rest w'' ->
    Pages nk tournamentId reset (Some c) w ((c, default [] (records answer)) :: rest) w''.

(** A run of [getBucketedTournamentRpc] that reaches the test of the
    bucket: the caller is the player [self], the payload parses to a
    message with tournament id [tid] and limit [limit], storage answers
    with [objects] and the registry with a first tournament [t0], the host
    being in [w2] by then. *)
Definition reaches_test `{Engine} {W : Type} (ctx : Context) (nk : Nakama W)
    (payload : string) (w : W) (self : string) (tid limit : JsVal)
    (objects : list StorageObject) (t0 : Tournament) (w2 : W) : Prop :=
  exists message ts w1,
    userId ctx = Some self /\ self <> EmptyString /\
    JSON_parse payload = Normal message /\
    message.["id"] = Normal tid /\ message.["limit"] = Normal limit /\
    storageRead nk (bucket_read self) w = (Normal objects, w1) /\
    tournamentsGetId nk [tid] w1 = (Normal (t0 :: ts), w2).

(** The requests that ask for these pages. *)
Definition requests (tournamentId : string) (reset : Z)
    (pages : list (string * list LeaderboardRecord)) : list Call :=
  (fun p => TournamentRecordsList (JStr tournamentId) [] (JNum (Fin 100))
              (Some p.1) (Some reset)) <$> pages.

(** The leaderboard that a sequence of pages lays out. *)
Definition leaderboard (pages : list (string * list LeaderboardRecord))
  : list LeaderboardRecord :=
  concat (snd <$> pages).

(** ** Sample inputs *)

(** An engine whose parser answers every payload with the sample request
    body of [get_bucketed_tournament], and for which a string, an array
    or an object converts to NaN. *)
Definition sample_engine : Engine := {|
  ToNumber_engine := fun _ => NaN;
  JSON_parse := fun _ =>
    Normal (JObj {[ "id" := JStr "live_event_2"; "limit" := JNum (Fin 32) ]})
|}.

(** The reward table of the sample request body of
    [server_create_live_event]. *)
Definition sample_rewards : JsVal := JObj {[
  "first" := JObj {[ "coins" := JNum (Fin 250) ]};
  "second" := JObj {[ "coins" := JNum (Fin 200) ]};
  "third" := JObj {[ "coins" := JNum (Fin 150) ]};
  "rest" := JObj {[ "coins" := JNum (Fin 50) ]} ]}.

(** A table with fractional amounts. *)
Definition fractional_rewards : JsVal := JObj {[
  "first" := JObj {[ "coins" := JNum (Fin (2504 # 10)) ]};
  "rest" := JObj {[ "coins" := JNum (Fin (-5 # 2)) ]} ]}.

(** A table with a first tier only. *)
Definition first_only_rewards : JsVal :=
  JObj {[ "first" := JObj {[ "coins" := JNum (Fin 100) ]} ]}.

(** A host without state: the listing answers [pages cursor], every
    other collaborator succeeds, the clock stands still, storage holds
    [objects], the registry answers [tournaments] and the sampler
    [users]. *)
Definition quiet_host (pages : option string -> Completion (option RecordList))
    (objects : list StorageObject) (tournaments : list Tournament)
    (users : list User) : Nakama unit := {|
  clock := fun w => (0, w);
  tournamentRecordsList := fun _ _ _ cursor _ w => (pages cursor, w);
  walletsUpdate := fun _ _ w => (Normal tt, w);
  notificationsSend := fun _ w => (Normal tt, w);
  metricsTimerRecord := fun _ _ _ w => (Normal tt, w);
  tournamentCreate := fun _ w => (Normal tt, w);
  storageRead := fun _ w => (Normal objects, w);
  storageWrite := fun _ w => (Normal tt, w);
  tournamentsGetId := fun _ w => (Normal tournaments, w);
  usersGetRandom := fun _ w => (Normal users, w)
|}.

(** A listing over a stable leaderboard [board], in pages of [size]
    records: the cursor of page [k] is a string of length [k], and a next
    cursor is handed out while records remain. *)
Definition stable_pages (size : nat) (board : list LeaderboardRecord)
    (cursor : option string) : Completion (option RecordList) :=
  let k := from_option String.length 0%nat cursor in
  Normal (Some {|
    records := Some (take size (drop (k * size) board));
    ownerRecords := None;
    nextCursor :=
      if ((k + 1) * size <? length board)%nat
      then Some (String "x"%char (default EmptyString cursor))
      else None;
    prevCursor := None |}).

(** A listing that is out of service. *)
Definition failing_pages (cursor : option string) : Completion (option RecordList) :=
  Abrupt (GoError "leaderboard unavailable").

(** Five records, of which the last has not scored. *)
Definition sample_board : list LeaderboardRecord := [
  {| ownerId := "ada"; score := 90; rank := 1 |};
  {| ownerId := "bob"; score := 70; rank := 2 |};
  {| ownerId := "cy"; score := 50; rank := 3 |};
  {| ownerId := "dee"; score := 30; rank := 4 |};
  {| ownerId := "eve"; score := 0; rank := 5 |} ].

Definition sample_event (rewards : JsVal) : Tournament := {|
  id := "live_event_1";
  title := "Live event";
  metadata := {[ "rewards" := rewards ]};
  endActive := 259200 |}.

Definition unrewarded_event : Tournament := {|
  id := "live_event_0";
  title := "Live event";
  metadata := ∅;
  endActive := 259200 |}.

(** The tournament of the sample request of [get_bucketed_tournament]. *)
Definition sample_tournament : Tournament := {|
  id := "live_event_2";
  title := "Live event";
  metadata := ∅;
  endActive := 259200 |}.

(** A population of three players, the caller [me] among them. *)
Definition small_population : list User :=
  [ {| user_userId := "ann" |}; {| user_userId := "me" |}; {| user_userId := "zed" |} ].

(** A bucket of fifteen members for the current cycle of
    [sample_tournament]. *)
Definition full_bucket : UserBucketStorageObject := {|
  resetTimeUnix := 259200;
  userIds := [ "p01"; "p02"; "p03"; "p04"; "p05"; "p06"; "p07"; "p08"; "p09";
               "p10"; "p11"; "p12"; "p13"; "p14"; "p15" ]%string |}.

(** A host for the bucketed view: storage holds [objects], the registry
    knows [sample_tournament], the sampler draws [users]. *)
Definition bucket_host (objects : list StorageObject) (users : list User) : Nakama unit :=
  quiet_host (stable_pages 100 sample_board) objects [sample_tournament] users.

(** A host that keeps the buckets: its state maps a player to the bucket
    last written for them, a read answers with the owner's bucket if there
    is one, the sampler draws the first [count] of [users], and the
    listing pages through [sample_board]. *)
Definition store_host (tournaments : list Tournament) (users : list User)
  : Nakama (gmap string UserBucketStorageObject) := {|
  clock := fun w => (0, w);
  tournamentRecordsList := fun _ _ _ cursor _ w => (stable_pages 100 sample_board cursor, w);
  walletsUpdate := fun _ _ w => (Normal tt, w);
  notificationsSend := fun _ w => (Normal tt, w);
  metricsTimerRecord := fun _ _ _ w => (Normal tt, w);
  tournamentCreate := fun _ w => (Normal tt, w);
  storageRead := fun reads w =>
    (Normal (omap (fun r => mkObject <$> w !! read_userId r) reads), w);
  storageWrite := fun writes w =>
    (Normal tt, foldl (fun m x => <[write_userId x := write_value x]> m) w writes);
  tournamentsGetId := fun _ w => (Normal tournaments, w);
  usersGetRandom := fun count w => (Normal (take (Z.to_nat count) users), w)
|}.

(** ** The hook after device authentication *)

(** The fields of [nkruntime.Session]. *)
Record Session : Type := mkSession {
  created : bool;
  token : string;
  refreshToken : string
}.

(** The calls that leave [initializeUser]. *)
Inductive HookCall : Type :=
| WalletUpdateCall (user : option string) (changeset : Reward) (metadata : JsVal)
    (updateLedger : bool)
| HookLoggerError (format : string) (args : list string).

(** [nk.walletUpdate], as an oracle over the host state. *)
Definition WalletOracle (W : Type) : Type :=
  option string -> Reward -> JsVal -> bool -> W -> Completion unit * W.

Record HookState (W : Type) : Type := mkHookState {
  hook_host : W;
  hook_trace : list HookCall
}.
Arguments mkHookState {W} _ _.
Arguments hook_host {W} _.
Arguments hook_trace {W} _.

(** A run of the hook returns or throws; it has no loop. *)
Definition Hook (W A : Type) : Type := HookState W -> Completion A * HookState W.

Section HookMonad.
Context {W : Type}.

#[global] Instance Hook_ret : MRet (Hook W) := fun A a s => (Normal a, s).
#[global] Instance Hook_bind : MBind (Hook W) := fun A B f m s =>
  match m s with
  | (Normal a, s') => f a s'
  | (Abrupt e, s') => (Abrupt e, s')
  end.

(** [try { body } catch (error) { handler }] *)
Definition hook_try_catch {A : Type} (body : Hook W A) (handler : Error -> Hook W A)
  : Hook W A :=
  fun s =>
    match body s with
    | (Abrupt e, s') => handler e s'
    | r => r
    end.

Definition hook_call {A : Type} (c : HookCall) (oracle : W -> Completion A * W)
  : Hook W A :=
  fun s =>
    let '(r, w) := oracle (hook_host s) in
    (r, mkHookState w (hook_trace s ++ [c])).

Definition hook_logger_error (format : string) (args : list string) : Hook W unit :=
  fun s => (Normal tt, mkHookState (hook_host s) (hook_trace s ++ [HookLoggerError format args])).

(** Hook to initialize a newly registered user.  [ctx.userId] is passed
    on as it is, [undefined] ([None]) included; the third argument of
    [nk.walletUpdate] is [undefined]. *)
Definition initializeUser (ctx : Context) (walletUpdate : WalletOracle W)
    (out : Session) (data : JsVal) : Hook W Session :=
  (* Only initialise a player when they are registering for the first time *)
  (if created out then
     let changeset := {| coins := Fin 100 |} in (* Add 100 coins to the user's wallet *)
     hook_try_catch
       (hook_call (WalletUpdateCall (userId ctx) changeset JUndefined true)
          (walletUpdate (userId ctx) changeset JUndefined true))
       (fun error =>
          hook_logger_error "Error while initializing user: %s" [message error])
   else mret tt);;
  mret out.

End HookMonad.

(** ** More vocabulary *)

Definition notification_batches (tr : list Call) : list (list NotificationRequest) :=
  omap (fun c => match c with NotificationsSend ns => Some ns | _ => None end) tr.

Definition storage_reads (tr : list Call) : list (list StorageReadRequest) :=
  omap (fun c => match c with StorageRead rs => Some rs | _ => None end) tr.

Definition wallet_credits (tr : list HookCall)
  : list (option string * Reward * JsVal * bool) :=
  omap (fun c => match c with
                 | WalletUpdateCall u cs md l => Some (u, cs, md, l)
                 | _ => None
                 end) tr.

(** The record has scored. *)
Definition scored (r : LeaderboardRecord) : bool := negb (score r =? 0).

(** The player and the score of a record, without its rank. *)
Definition standing (r : LeaderboardRecord) : string * Z := (ownerId r, score r).

(** A record with its rank wiped. *)
Definition unranked (r : LeaderboardRecord) : LeaderboardRecord :=
  {| ownerId := ownerId r; score := score r; rank := 0 |}.

(** Who receives what, in a wallet update and in a notification. *)
Definition wallet_grant (u : WalletUpdate) : string * Reward :=
  (wallet_userId u, changeset u).

Definition notified_grant (n : NotificationRequest) : string * Reward :=
  (notification_userId n, reward (content n)).

(** The notification of the reward of a record, in the tournament
    titled [event]. *)
Definition well_formed_notice (event : string) (n : NotificationRequest) : Prop :=
  code n = 1 /\ persistent n = true /\ subject n = "event_reward"%string /\
  event_name (content n) = event.

(** The two arrays of the scan list the same grants, in well-formed
    notifications. *)
Definition matched (t : Tournament) (b : Batches) : Prop :=
  wallet_grant <$> walletUpdates b = notified_grant <$> notifications b /\
  Forall (well_formed_notice (title t)) (notifications b).

Section Notice.
Context `{Engine}.

(** The notification that a record earns, if it earns one. *)
Definition notice (rewards : JsVal) (tournament : Tournament) (r : LeaderboardRecord)
  : option NotificationRequest :=
  match getReward rewards (rank r) (score r) with
  | Normal (Some reward) =>
      Some {| code := 1;
              content := {| event_name := title tournament;
                            reward := reward;
                            content_rank := rank r |};
              persistent := true;
              subject := "event_reward";
              notification_userId := ownerId r |}
  | _ => None
  end.

End Notice.

(** The value that [v[k]] reads when [v] is neither [undefined] nor
    [null]. *)
Definition property (v : JsVal) (k : string) : JsVal :=
  match v with
  | JObj fields => default JUndefined (fields !! k)
  | _ => JUndefined
  end.

(** The arguments that [serverCreateLiveEventRpc] builds from a parsed
    message. *)
Definition creation_of (msg : JsVal) : TournamentCreate := {|
  create_id := property msg "id";
  authoritative := false;
  sortOrder := "desc";
  operator := "incr";
  duration := property msg "duration";
  resetSchedule := JNull;
  create_metadata := {[ "rewards" := property msg "rewards" ]};
  create_title := JNull;
  description := JNull;
  category := 1;
  startTime := property msg "start_time";
  endTime := 0;
  maxSize := JNull;
  maxNumScore := JNull;
  joinRequired := false |}.

(** [JSON.parse] gives no usable message: it throws, or answers [null]
    or [undefined]. *)
Definition unusable (parsed : Completion JsVal) : Prop :=
  (exists e, parsed = Abrupt e) \/ parsed = Normal JNull \/ parsed = Normal JUndefined.

(** ** More sample inputs *)

(** Fifteen players to draw. *)
Definition full_population : list User := mkUser <$> userIds full_bucket.

(** A wallet that is out of service, and one that works. *)
Definition failing_wallet : WalletOracle unit :=
  fun _ _ _ _ w => (Abrupt (GoError "wallet unavailable"), w).

Definition working_wallet : WalletOracle unit :=
  fun _ _ _ _ w => (Normal tt, w).

(** [quiet_host] with a registry that refuses to create, and with a
    wallet that refuses the batch. *)
Definition refusing_registry (users : list User) : Nakama unit :=
  let q := quiet_host failing_pages [] [] users in {|
  clock := clock q;
  tournamentRecordsList := tournamentRecordsList q;
  walletsUpdate := walletsUpdate q;
  notificationsSend := notificationsSend q;
  metricsTimerRecord := metricsTimerRecord q;
  tournamentCreate := fun _ w => (Abrupt (GoError "tournament exists"), w);
  storageRead := storageRead q;
  storageWrite := storageWrite q;
  tournamentsGetId := tournamentsGetId q;
  usersGetRandom := usersGetRandom q
|}.

Definition refusing_wallets (board : list LeaderboardRecord) : Nakama unit :=
  let q := quiet_host (stable_pages 100 board) [] [] [] in {|
  clock := clock q;
  tournamentRecordsList := tournamentRecordsList q;
  walletsUpdate := fun _ _ w => (Abrupt (GoError "ledger unavailable"), w);
  notificationsSend := notificationsSend q;
  metricsTimerRecord := metricsTimerRecord q;
  tournamentCreate := tournamentCreate q;
  storageRead := storageRead q;
  storageWrite := storageWrite q;
  tournamentsGetId := tournamentsGetId q;
  usersGetRandom := usersGetRandom q
|}.

(** [bucket_host] with a storage that refuses writes. *)
Definition refusing_storage (objects : list StorageObject) (users : list User)
  : Nakama unit :=
  let q := bucket_host objects users in {|
  clock := clock q;
  tournamentRecordsList := tournamentRecordsList q;
  walletsUpdate := walletsUpdate q;
  notificationsSend := notificationsSend q;
  metricsTimerRecord := metricsTimerRecord q;
  tournamentCreate := tournamentCreate q;
  storageRead := storageRead q;
  storageWrite := fun _ w => (Abrupt (GoError "storage unavailable"), w);
  tournamentsGetId := tournamentsGetId q;
  usersGetRandom := usersGetRandom q
|}.

(** * Properties *)

(** ** Rounding *)

Lemma round_half_up_bounds (q : Q) :
  (inject_Z (round_half_up q) - (1 # 2) <= q)%Q /\
  (q < inject_Z (round_half_up q) + (1 # 2))%Q.
Proof.
  unfold round_half_up.
  pose proof (Qfloor_le (q + (1 # 2))) as Hle.
  pose proof (Qlt_floor (q + (1 # 2))) as Hlt.
  rewrite inject_Z_plus in Hlt.
  change (inject_Z 1) with 1%Q in Hlt.
  split; lra.
Qed.

Lemma round_half_up_nearest (q : Q) : nearest_integer q (round_half_up q).
Proof.
  intros z'.
  destruct (round_half_up_bounds q) as [Hlo Hhi].
  set (z := round_half_up q) in *.
  assert (Hz : (Qabs (q - inject_Z z) <= 1 # 2)%Q).
  { apply Qabs_Qle_condition. split; lra. }
  destruct (Z.eq_dec z' z) as [-> | Hne]; [apply Qle_refl |].
  apply Qle_trans with (1 # 2)%Q; [exact Hz |].
  destruct (Z_lt_le_dec z' z) as [Hlt | Hge].
  - assert (Hq : (inject_Z z' + 1 <= inject_Z z)%Q).
    { change 1%Q with (inject_Z 1). rewrite <- inject_Z_plus.
      rewrite <- Zle_Qle. lia. }
    apply Qle_trans with (q - inject_Z z')%Q; [lra | apply Qle_Qabs].
  - assert (Hq : (inject_Z z + 1 <= inject_Z z')%Q).
    { change 1%Q with (inject_Z 1). rewrite <- inject_Z_plus.
      rewrite <- Zle_Qle. lia. }
    apply Qle_trans with (- (q - inject_Z z'))%Q; [lra |].
    rewrite <- Qabs_opp. apply Qle_Qabs.
Qed.


(** ** The reward lookup *)

Section RewardProperties.
Context `{Engine}.

Lemma getProp_configured (rewards : JsVal) (tier : string) (q : Q) :
  configured rewards tier q ->
  exists t, rewards.[tier] = Normal t /\ t.["coins"] = Normal (JNum (Fin q)).
Proof.
  intros (fields & tier_fields & -> & Htier & Hcoins).
  exists (JObj tier_fields). simpl. rewrite Htier, Hcoins. done.
Qed.

Lemma getProp_omits (rewards : JsVal) (tier : string) :
  omits rewards tier -> rewards.[tier] = Normal JUndefined.
Proof. intros (fields & -> & Hnone). simpl. by rewrite Hnone. Qed.

(** The reward of a scored record is read from the tier of its rank. *)
Lemma getReward_tier (rewards : JsVal) (rank score : Z) :
  score <> 0 ->
  getReward rewards rank score =
    (tier ← rewards.[tier_of_rank rank]; c ← tier.["coins"];
     mret (Some {| coins := Math_round (ToNumber c) |})).
Proof.
  intros Hscore. unfold getReward, tier_of_rank.
  destruct (Z.eqb_spec score 0) as [? | _]; [done |].
  destruct rank as [| [p | p |] | p]; try reflexivity;
    destruct p as [p | p |]; reflexivity.
Qed.

Lemma getReward_configured (rewards : JsVal) (rank score : Z) (q : Q) :
  score <> 0 ->
  configured rewards (tier_of_rank rank) q ->
  getReward rewards rank score
    = Normal (Some {| coins := Fin (inject_Z (round_half_up q)) |}).
Proof.
  intros Hscore Hconf. rewrite getReward_tier by done.
  destruct (getProp_configured _ _ _ Hconf) as (t & -> & Ht).
  simpl. rewrite Ht. reflexivity.
Qed.



End RewardProperties.

(** C2: [getReward] returns no reward when the score is 0; for a scored
    record it pays rank 1 from the table's [first] tier, rank 2 from
    [second], rank 3 from [third] and every rank from 4 on from [rest],
    and the coins it returns are the configured amount rounded to the
    nearest integer. *)
Theorem getReward_by_rank `{Engine} (rewards : JsVal) (rank score : Z) :
  (score = 0 -> getReward rewards rank score = Normal None) /\
  (score <> 0 ->
   forall (tier : string) (q : Q),
     rank = 1 /\ tier = "first"%string \/ rank = 2 /\ tier = "second"%string \/
     rank = 3 /\ tier = "third"%string \/ 4 <= rank /\ tier = "rest"%string ->
     configured rewards tier q ->
     nearest_integer q (round_half_up q) /\
     getReward rewards rank score
       = Normal (Some {| coins := Fin (inject_Z (round_half_up q)) |})).
Proof.
  split.
  - intros ->. reflexivity.
  - intros Hscore tier q Hrank Hconf.
    split; [apply round_half_up_nearest |].
    apply getReward_configured; [done |].
    assert (tier_of_rank rank = tier) as ->; [| done].
    unfold tier_of_rank.
    destruct Hrank as [[-> ->] | [[-> ->] | [[-> ->] | [Hge ->]]]]; try reflexivity.
    repeat case_match; try reflexivity; lia.
Qed.

Lemma getReward_by_rank_witness :
  @getReward sample_engine fractional_rewards 1 0 = Normal None /\
  @getReward sample_engine fractional_rewards 1 7
    = Normal (Some {| coins := Fin (inject_Z 250) |}) /\
  @getReward sample_engine sample_rewards 9 7
    = Normal (Some {| coins := Fin (inject_Z 50) |}).
Proof.
  split; [| split].
  - apply (@getReward_by_rank sample_engine fractional_rewards 1 0). reflexivity.
  - apply (proj2 (@getReward_by_rank sample_engine fractional_rewards 1 7)
             ltac:(lia) "first"%string (2504 # 10)%Q).
    + left. split; reflexivity.
    + eexists _, _. split; [reflexivity |]. split; reflexivity.
  - apply (proj2 (@getReward_by_rank sample_engine sample_rewards 9 7)
             ltac:(lia) "rest"%string 50%Q).
    + right. right. right. split; [lia | reflexivity].
    + eexists _, _. split; [reflexivity |]. split; reflexivity.
Defined.

(** C8: when the reward table has no entry for the tier that the rank of a
    scored record maps to, [getReward] reads [coins] of [undefined] and
    throws a TypeError; it neither skips the player nor returns a zero
    reward. *)
Theorem getReward_missing_tier `{Engine} (rewards : JsVal) (rank score : Z) :
  score <> 0 ->
  omits rewards (tier_of_rank rank) ->
  (exists msg, getReward rewards rank score = Abrupt (TypeError msg)) /\
  (forall r, getReward rewards rank score <> Normal r).
Proof.
  intros Hscore Homit.
  rewrite getReward_tier by done.
  rewrite (getProp_omits _ _ Homit). simpl.
  split; [eauto | done].
Qed.

Lemma getReward_missing_tier_witness :
  exists msg,
    @getReward sample_engine first_only_rewards 2 30 = Abrupt (TypeError msg).
Proof.
  apply (@getReward_missing_tier sample_engine first_only_rewards 2 30).
  - lia.
  - eexists. split; reflexivity.
Defined.

(** C10: for a score other than 0 and every rank that is not exactly 1, 2
    or 3 (rank 0 and negative ranks as well as ranks from 4 on),
    [getReward] takes the default case of its switch and returns the
    rounded [rest] tier. *)
Theorem getReward_default_tier `{Engine} (rewards : JsVal) (rank score : Z) :
  score <> 0 ->
  rank <> 1 -> rank <> 2 -> rank <> 3 ->
  getReward rewards rank score =
    (tier ← rewards.["rest"]; c ← tier.["coins"];
     mret (Some {| coins := Math_round (ToNumber c) |})) /\
  (forall q : Q,
     configured rewards "rest" q ->
     getReward rewards rank score
       = Normal (Some {| coins := Fin (inject_Z (round_half_up q)) |})).
Proof.
  intros Hscore H1 H2 H3.
  assert (Htier : tier_of_rank rank = "rest"%string).
  { unfold tier_of_rank. repeat case_match; try reflexivity; lia. }
  split.
  - rewrite getReward_tier by done. by rewrite Htier.
  - intros q Hconf. apply getReward_configured; [done |]. by rewrite Htier.
Qed.

Lemma getReward_default_tier_witness :
  @getReward sample_engine fractional_rewards 0 7
    = Normal (Some {| coins := Fin (inject_Z (-2)) |}) /\
  @getReward sample_engine fractional_rewards (-3) 7
    = Normal (Some {| coins := Fin (inject_Z (-2)) |}) /\
  @getReward sample_engine fractional_rewards 4 (-1)
    = Normal (Some {| coins := Fin (inject_Z (-2)) |}).
Proof.
  assert (Hrest : configured fractional_rewards "rest" (-5 # 2)).
  { eexists _, _. split; [reflexivity |]. split; reflexivity. }
  split; [| split].
  - exact (proj2 (@getReward_default_tier sample_engine fractional_rewards 0 7
                    ltac:(lia) ltac:(lia) ltac:(lia) ltac:(lia)) _ Hrest).
  - exact (proj2 (@getReward_default_tier sample_engine fractional_rewards (-3) 7
                    ltac:(lia) ltac:(lia) ltac:(lia) ltac:(lia)) _ Hrest).
  - exact (proj2 (@getReward_default_tier sample_engine fractional_rewards 4 (-1)
                    ltac:(lia) ltac:(lia) ltac:(lia) ltac:(lia)) _ Hrest).
Defined.

(** ** The sort of the owner records *)

Section SortProperties.

Lemma sort_insert_perm {A : Type} (cmp : A -> A -> Z) (a : A) (l : list A) :
  sort_insert cmp a l ≡ₚ a :: l.
Proof.
  induction l as [| b l IH]; simpl; [done |].
  destruct (0 <? cmp a b); [| done].
  rewrite IH. apply Permutation_swap.
Qed.

Lemma Array_sort_perm {A : Type} (cmp : A -> A -> Z) (l : list A) :
  Array_sort cmp l ≡ₚ l.
Proof.
  induction l as [| a l IH]; simpl; [done |].
  rewrite sort_insert_perm. by rewrite IH.
Qed.

Lemma length_Array_sort {A : Type} (cmp : A -> A -> Z) (l : list A) :
  length (Array_sort cmp l) = length l.
Proof. apply Permutation_length, Array_sort_perm. Qed.

Lemma sort_insert_HdRel (c a : LeaderboardRecord) (l : list LeaderboardRecord) :
  above c a -> HdRel above c l -> HdRel above c (sort_insert by_score a l).
Proof.
  intros Hca Hcl. destruct l as [| b l]; simpl; [by constructor |].
  destruct (0 <? by_score a b); constructor; [| done].
  by inversion Hcl.
Qed.

Lemma sort_insert_descending (a : LeaderboardRecord) (l : list LeaderboardRecord) :
  descending l -> descending (sort_insert by_score a l).
Proof.
  unfold descending.
  induction 1 as [| b l Hsorted IH Hhd]; simpl.
  - repeat constructor.
  - destruct (Z.ltb_spec 0 (by_score a b)) as [Hlt | Hge].
    + constructor; [exact IH |].
      apply sort_insert_HdRel; [| done]. unfold above, by_score in *. lia.
    + constructor; [by constructor |].
      constructor. unfold above, by_score in *. lia.
Qed.

Lemma Array_sort_descending (l : list LeaderboardRecord) :
  descending (Array_sort by_score l).
Proof.
  induction l as [| a l IH]; simpl; [constructor |].
  by apply sort_insert_descending.
Qed.

(** The sort is stable: records already in descending order stay where
    they are. *)
Lemma Array_sort_fixed (l : list LeaderboardRecord) :
  descending l -> Array_sort by_score l = l.
Proof.
  unfold descending.
  induction 1 as [| a l Hsorted IH Hhd]; simpl; [done |].
  rewrite IH. destruct Hhd as [| b l Hab]; simpl; [done |].
  destruct (Z.ltb_spec 0 (by_score a b)) as [Hlt | _]; [| done].
  unfold by_score, above in *. lia.
Qed.

Lemma imap_descending (f : nat -> LeaderboardRecord -> LeaderboardRecord)
    (l : list LeaderboardRecord) :
  (forall i r, score (f i r) = score r) ->
  descending l -> descending (imap f l).
Proof.
  unfold descending. intros Hf Hl. revert f Hf.
  induction Hl as [| a l Hsorted IH Hhd]; intros f Hf; simpl; [constructor |].
  constructor.
  - apply IH. intros i r. apply Hf.
  - destruct Hhd as [| b l Hab]; simpl; constructor.
    unfold above in *. rewrite !Hf. exact Hab.
Qed.

Lemma set_rank_twice (l : list LeaderboardRecord) :
  imap set_rank (imap set_rank l) = imap set_rank l.
Proof.
  apply list_eq. intros i. rewrite !list_lookup_imap.
  by destruct (l !! i).
Qed.

Lemma rank_set_rank (l : list LeaderboardRecord) :
  rank <$> imap set_rank l = ranks_upto (length l).
Proof.
  rewrite fmap_imap. unfold ranks_upto.
  by rewrite <- (imap_seq_0 l (fun i => Z.of_nat i + 1)).
Qed.

Lemma set_rank_ranked (l : list LeaderboardRecord) :
  rank <$> l = ranks_upto (length l) -> imap set_rank l = l.
Proof.
  intros Hranks. apply list_eq. intros i. rewrite list_lookup_imap.
  destruct (l !! i) as [r |] eqn:Hr; [| done]. simpl. f_equal.
  assert (Hi : (rank <$> l) !! i = Some (rank r)) by by rewrite list_lookup_fmap, Hr.
  rewrite Hranks in Hi. unfold ranks_upto in Hi.
  rewrite list_lookup_fmap in Hi.
  destruct (seq 0 (length l) !! i) as [j |] eqn:Hj; [| done].
  apply lookup_seq in Hj as [-> _]. simpl in Hi.
  destruct r as [o s k]. unfold set_rank. simpl in *. by injection Hi as <-.
Qed.

Lemma identity_set_rank (l : list LeaderboardRecord) :
  (fun r => (ownerId r, score r)) <$> imap set_rank l
    = (fun r => (ownerId r, score r)) <$> l.
Proof.
  rewrite fmap_imap, <- imap_const. apply imap_ext. by intros i [o s k] _.
Qed.

End SortProperties.

(** C6: for a sequence of N records, [SortRecords] returns N records in
    descending order of score, the same players with the same scores,
    whose ranks are 1, 2, ..., N in order; sorting its result again
    returns it unchanged, and records that are already in descending
    order of score keep their places, so that their ranks, once 1..N, are
    assigned again as they were. *)
Theorem SortRecords_ranks (l : list LeaderboardRecord) :
  exists sorted : list LeaderboardRecord,
    SortRecords (Some l) = Some sorted /\
    length sorted = length l /\
    rank <$> sorted = ranks_upto (length l) /\
    descending sorted /\
    (fun r => (ownerId r, score r)) <$> sorted
      ≡ₚ (fun r => (ownerId r, score r)) <$> l /\
    SortRecords (Some sorted) = Some sorted /\
    (descending l -> sorted = imap set_rank l) /\
    (descending l -> rank <$> l = ranks_upto (length l) -> sorted = l).
Proof.
  exists (imap set_rank (Array_sort by_score l)).
  pose proof (Array_sort_descending l) as Hdesc.
  repeat split.
  - by rewrite length_imap, length_Array_sort.
  - by rewrite rank_set_rank, length_Array_sort.
  - by apply imap_descending.
  - rewrite identity_set_rank. apply fmap_Permutation, Array_sort_perm.
  - unfold SortRecords. simpl. f_equal.
    rewrite Array_sort_fixed by by apply imap_descending.
    apply set_rank_twice.
  - intros Hl. by rewrite Array_sort_fixed.
  - intros Hl Hranks. rewrite Array_sort_fixed by done.
    by apply set_rank_ranked.
Qed.

Lemma SortRecords_ranks_witness :
  SortRecords (Some [ {| ownerId := "ada"; score := 90; rank := 1 |};
                      {| ownerId := "bob"; score := 70; rank := 2 |};
                      {| ownerId := "cy"; score := 70; rank := 3 |} ])
    = Some [ {| ownerId := "ada"; score := 90; rank := 1 |};
             {| ownerId := "bob"; score := 70; rank := 2 |};
             {| ownerId := "cy"; score := 70; rank := 3 |} ].
Proof.
  destruct (SortRecords_ranks
              [ {| ownerId := "ada"; score := 90; rank := 1 |};
                {| ownerId := "bob"; score := 70; rank := 2 |};
                {| ownerId := "cy"; score := 70; rank := 3 |} ])
    as (sorted & -> & _ & _ & _ & _ & _ & _ & Hsame).
  f_equal. apply Hsame; [| reflexivity].
  repeat constructor; unfold above; simpl; lia.
Defined.

(** ** Runs *)

Ltac run_unfold :=
  unfold Date_now, logger_debug, logger_error, call, lift, try_catch,
    out_of_fuel in *;
  unfold mbind, Run_bind, mret, Run_ret, mthrow, Run_throw in *.

Section RunProperties.
Context `{Engine} {W : Type}.
Implicit Types (nk : Nakama W) (s : State W) (b : Batches).

Lemma forEach_app {A S : Type} (f : A -> S -> Completion S) (l1 l2 : list A) (s : S) :
  forEach f (l1 ++ l2) s = (s' ← forEach f l1 s; forEach f l2 s').
Proof.
  revert s. induction l1 as [| a l1 IH]; intros s; simpl; [done |].
  destruct (f a s) as [s' |]; simpl; [apply IH | done].
Qed.

(** The callback adds the payout of its record, and nothing else. *)
Lemma rewardRecord_payout (rewards : JsVal) (t : Tournament) (r : LeaderboardRecord) b b' :
  rewardRecord rewards t r b = Normal b' ->
  walletUpdates b' = walletUpdates b ++ option_list (payout rewards r).
Proof.
  unfold rewardRecord, payout.
  destruct (getReward rewards (rank r) (score r)) as [[reward |] |]; simpl;
    intros Heq; try done; injection Heq as <-; simpl; [done |].
  by rewrite app_nil_r.
Qed.

Lemma rewardRecord_decides (rewards : JsVal) (t : Tournament) (r : LeaderboardRecord) b :
  decides rewards r = true -> exists b', rewardRecord rewards t r b = Normal b'.
Proof.
  unfold rewardRecord, decides.
  destruct (getReward rewards (rank r) (score r)) as [[reward |] |]; simpl;
    intros ?; try done; eauto.
Qed.

Lemma forEach_payout (rewards : JsVal) (t : Tournament) (l : list LeaderboardRecord) b b' :
  forEach (rewardRecord rewards t) l b = Normal b' ->
  walletUpdates b' = walletUpdates b ++ omap (payout rewards) l.
Proof.
  revert b. induction l as [| r l IH]; intros b; simpl.
  - intros [= <-]. by rewrite app_nil_r.
  - destruct (rewardRecord rewards t r b) as [b1 |] eqn:Hr; simpl; [| done].
    intros Hl. rewrite (IH _ Hl), (rewardRecord_payout _ _ _ _ _ Hr).
    rewrite <- app_assoc. f_equal. by destruct (payout rewards r).
Qed.

Lemma forEach_decides (rewards : JsVal) (t : Tournament) (l : list LeaderboardRecord) b :
  forallb (decides rewards) l = true ->
  exists b', forEach (rewardRecord rewards t) l b = Normal b'.
Proof.
  revert b. induction l as [| r l IH]; intros b; simpl; [eauto |].
  rewrite andb_true_iff. intros [Hr Hl].
  destruct (rewardRecord_decides rewards t r b Hr) as [b1 ->]. simpl. by apply IH.
Qed.

Lemma forEach_undecided (rewards : JsVal) (t : Tournament) (l : list LeaderboardRecord) b :
  forallb (decides rewards) l = false ->
  exists e, forEach (rewardRecord rewards t) l b = Abrupt e.
Proof.
  revert b. induction l as [| r l IH]; intros b; simpl; [done |].
  rewrite andb_false_iff. intros Hfalse.
  destruct (rewardRecord rewards t r b) as [b1 | e] eqn:Hr; simpl; [| eauto].
  apply IH. destruct Hfalse as [Hdec | Hl]; [| exact Hl].
  unfold rewardRecord in Hr. unfold decides in Hdec.
  by destruct (getReward rewards (rank r) (score r)) as [[reward |] |].
Qed.

(** Along the pages of an exhausting listing the scan asks for each page
    once, and threads the callback through the records of the pages in
    order. *)
Lemma scanRecords_pages (fuel : nat) nk (rewards : JsVal) (t : Tournament) (reset : Z)
    (cursor : option string) (w w' : W) (pages : list (string * list LeaderboardRecord))
    b b' (tr : list Call) :
  Pages nk (id t) reset cursor w pages w' ->
  (length pages <= fuel)%nat ->
  forEach (rewardRecord rewards t) (leaderboard pages) b = Normal b' ->
  scanRecords fuel nk rewards t reset cursor b (mkState w tr)
    = (Returned b', mkState w' (tr ++ requests (id t) reset pages)).
Proof.
  intros Hpages. revert fuel b tr.
  induction Hpages as [w | c w w1 w2 answer rest Hcall Hrest IH]; intros fuel b tr Hfuel Hb.
  - destruct fuel; simpl in *; injection Hb as <-; by rewrite app_nil_r.
  - destruct fuel as [| fuel]; simpl in Hfuel; [lia |].
    unfold leaderboard in Hb. simpl in Hb. rewrite forEach_app in Hb.
    destruct (forEach (rewardRecord rewards t) (default [] (records answer)) b)
      as [b1 |] eqn:Hpage; simpl in Hb; [| done].
    simpl. run_unfold. simpl. rewrite Hcall. simpl.
    destruct (records answer) as [rs |]; simpl in Hpage.
    + rewrite Hpage. simpl.
      rewrite (IH fuel b1 _ ltac:(lia) Hb). by rewrite <- app_assoc.
    + injection Hpage as ->. simpl.
      rewrite (IH fuel b1 _ ltac:(lia) Hb). by rewrite <- app_assoc.
Qed.


(** When the reward lookup throws on a record, the scan stops there: the
    pages up to that record have been asked for, once each. *)
Lemma scanRecords_aborts (fuel : nat) nk (rewards : JsVal) (t : Tournament) (reset : Z)
    (cursor : option string) (w w' : W) (pages : list (string * list LeaderboardRecord))
    b (e : Error) (tr : list Call) :
  Pages nk (id t) reset cursor w pages w' ->
  (length pages <= fuel)%nat ->
  forEach (rewardRecord rewards t) (leaderboard pages) b = Abrupt e ->
  exists (k : nat) (w'' : W),
    scanRecords fuel nk rewards t reset cursor b (mkState w tr)
      = (Thrown e, mkState w'' (tr ++ requests (id t) reset (take k pages))).
Proof.
  intros Hpages. revert fuel b tr.
  induction Hpages as [w | c w w1 w2 answer rest Hcall Hrest IH]; intros fuel b tr Hfuel Hb.
  - done.
  - destruct fuel as [| fuel]; simpl in Hfuel; [lia |].
    unfold leaderboard in Hb. simpl in Hb. rewrite forEach_app in Hb.
    simpl. run_unfold. simpl. rewrite Hcall. simpl.
    destruct (records answer) as [rs |]; simpl in Hb |- *.
    + destruct (forEach (rewardRecord rewards t) rs b) as [b1 | e1]; simpl in Hb |- *.
      * destruct (IH fuel b1 (tr ++ [TournamentRecordsList (JStr (id t)) []
                    (JNum (Fin 100)) (Some c) (Some reset)]) ltac:(lia) Hb)
          as (k & w'' & ->).
        exists (S k), w''. simpl. by rewrite <- app_assoc.
      * injection Hb as ->. by exists 1%nat, w1.
    + destruct (IH fuel b (tr ++ [TournamentRecordsList (JStr (id t)) []
                  (JNum (Fin 100)) (Some c) (Some reset)]) ltac:(lia) Hb)
        as (k & w'' & ->).
      exists (S k), w''. simpl. by rewrite <- app_assoc.
Qed.

(** More fuel does not change a scan that has ended. *)
Lemma scanRecords_fuel (n m : nat) nk (rewards : JsVal) (t : Tournament) (reset : Z)
    (cursor : option string) b s :
  (scanRecords n nk rewards t reset cursor b s).1 <> OutOfFuel ->
  (n <= m)%nat ->
  scanRecords m nk rewards t reset cursor b s
    = scanRecords n nk rewards t reset cursor b s.
Proof.
  revert m cursor b s. induction n as [| n IH]; intros m [c |] b s Hends Hle.
  - done.
  - by destruct m.
  - destruct m as [| m]; [lia |]. simpl in *. run_unfold. simpl in *.
    destruct (tournamentRecordsList nk _ _ _ _ _ (host s)) as [[[answer |] | e] w];
      simpl in *; try done.
    destruct (records answer) as [rs |]; simpl in *.
    + destruct (forEach (rewardRecord rewards t) rs b) as [b1 |]; simpl in *; [| done].
      apply IH; [done | lia].
    + apply IH; [done | lia].
  - by destruct m.
Qed.

Lemma wallet_batches_app (tr1 tr2 : list Call) :
  wallet_batches (tr1 ++ tr2) = wallet_batches tr1 ++ wallet_batches tr2.
Proof. apply omap_app. Qed.



Lemma wallet_batches_requests (tournamentId : string) (reset : Z)
    (pages : list (string * list LeaderboardRecord)) :
  wallet_batches (requests tournamentId reset pages) = [].
Proof. induction pages as [| p pages IH]; simpl; done. Qed.

(** Whatever the listing does, a scan that returns has threaded the
    callback through some records, and has sent nothing to the wallets. *)
Lemma scanRecords_returned (fuel : nat) nk (rewards : JsVal) (t : Tournament) (reset : Z)
    (cursor : option string) b s b' s' :
  scanRecords fuel nk rewards t reset cursor b s = (Returned b', s') ->
  exists l, forEach (rewardRecord rewards t) l b = Normal b'.
Proof.
  revert cursor b s. induction fuel as [| fuel IH]; intros [c |] b s; simpl.
  - done.
  - intros [= <- <-]. by exists [].
  - run_unfold. simpl.
    destruct (tournamentRecordsList nk _ _ _ _ _ (host s)) as [[[answer |] | e] w]; simpl;
      try done.
    destruct (records answer) as [rs |]; simpl.
    + destruct (forEach (rewardRecord rewards t) rs b) as [b1 |] eqn:Hrs; simpl; [| done].
      intros Hscan. destruct (IH _ _ _ Hscan) as [l Hl].
      exists (rs ++ l). rewrite forEach_app, Hrs. exact Hl.
    + apply IH.
  - intros [= <- <-]. by exists [].
Qed.

Lemma scanRecords_wallet (fuel : nat) nk (rewards : JsVal) (t : Tournament) (reset : Z)
    (cursor : option string) b s :
  wallet_batches (trace (scanRecords fuel nk rewards t reset cursor b s).2)
    = wallet_batches (trace s).
Proof.
  revert cursor b s. induction fuel as [| fuel IH]; intros [c |] b s; simpl; try done.
  run_unfold. simpl.
  destruct (tournamentRecordsList nk _ _ _ _ _ (host s)) as [[[answer |] | e] w]; simpl.
  - destruct (records answer) as [rs |]; simpl.
    + destruct (forEach (rewardRecord rewards t) rs b) as [b1 |]; simpl.
      * rewrite IH. simpl. by rewrite wallet_batches_app, app_nil_r.
      * by rewrite wallet_batches_app, app_nil_r.
    + rewrite IH. simpl. by rewrite wallet_batches_app, app_nil_r.
  - by rewrite wallet_batches_app, app_nil_r.
  - by rewrite wallet_batches_app, app_nil_r.
Qed.

#[local] Arguments scanRecords : simpl never.

(** The hook, step by step. *)
Lemma distributeEventRewards_unfold (fuel : nat) (ctx : Context) nk (t : Tournament)
    (end_ reset : Z) s :
  let rewards := default JUndefined (metadata t !! "rewards") in
  let started :=
    mkState (host s)
      (trace s ++ [LoggerDebug "Distributing event rewards for %s" [id t]]) in
  distributeEventRewards fuel ctx nk t end_ reset s =
    if truthy rewards then
      match distribution fuel nk rewards t reset started with
      | (Thrown e, s') =>
          (Returned tt,
           mkState (host s')
             (trace s' ++ [LoggerError "Error while distributing rewards: %s" [message e]]))
      | r => r
      end
    else
      (Returned tt,
       mkState (host s)
         (trace started ++ [LoggerDebug "No rewards are defined for %s" [id t]])).
Proof.
  simpl. unfold distributeEventRewards. run_unfold. simpl.
  destruct (truthy _); simpl; [| done].
  by destruct (distribution _ _ _ _ _ _) as [[[] | e |] s'].
Qed.


(** The [try] block along the pages of an exhausting listing. *)
Lemma distribution_pages (fuel : nat) nk (rewards : JsVal) (t : Tournament) (reset : Z) s
    (t0 : Z) (w0 w1 : W) (pages : list (string * list LeaderboardRecord)) b :
  clock nk (host s) = (t0, w0) ->
  Pages nk (id t) reset (Some EmptyString) w0 pages w1 ->
  (length pages <= fuel)%nat ->
  forEach (rewardRecord rewards t) (leaderboard pages) (mkBatches [] []) = Normal b ->
  exists r s' rest,
    distribution fuel nk rewards t reset s = (r, s') /\
    r <> OutOfFuel /\
    trace s' = trace s ++ [DateNow] ++ requests (id t) reset pages
                 ++ [WalletsUpdate (walletUpdates b) true] ++ rest /\
    page_requests rest = [] /\ wallet_batches rest = [].
Proof.
  intros Hclock Hpages Hfuel Hb.
  unfold distribution. run_unfold. simpl. rewrite Hclock. simpl.
  rewrite (scanRecords_pages _ _ _ _ _ _ _ _ _ _ _ _ Hpages Hfuel Hb). simpl.
  destruct (walletsUpdate nk _ _ w1) as [[[] | e] w2]; simpl.
  - destruct (notificationsSend nk _ w2) as [[[] | e] w3]; simpl.
    + destruct (clock nk w3) as [t1 w4]. simpl.
      destruct (metricsTimerRecord nk _ _ _ w4) as [[[] | e] w5]; simpl;
        eexists _, _, _; (split; [reflexivity |]); (split; [done |]);
        (split; [rewrite <- !app_assoc; simpl; reflexivity | done]).
    + eexists _, _, _; (split; [reflexivity |]); (split; [done |]);
        (split; [rewrite <- !app_assoc; simpl; reflexivity | done]).
  - eexists _, _, []; (split; [reflexivity |]); (split; [done |]);
      (split; [rewrite <- !app_assoc; simpl; reflexivity | done]).
Qed.

(** The [try] block when the reward lookup throws on a record. *)
Lemma distribution_aborts (fuel : nat) nk (rewards : JsVal) (t : Tournament) (reset : Z) s
    (t0 : Z) (w0 w1 : W) (pages : list (string * list LeaderboardRecord)) (e : Error) :
  clock nk (host s) = (t0, w0) ->
  Pages nk (id t) reset (Some EmptyString) w0 pages w1 ->
  (length pages <= fuel)%nat ->
  forEach (rewardRecord rewards t) (leaderboard pages) (mkBatches [] []) = Abrupt e ->
  exists (k : nat) (w'' : W),
    distribution fuel nk rewards t reset s
      = (Thrown e,
         mkState w'' (trace s ++ [DateNow] ++ requests (id t) reset (take k pages))).
Proof.
  intros Hclock Hpages Hfuel Hb.
  unfold distribution. run_unfold. simpl. rewrite Hclock. simpl.
  destruct (scanRecords_aborts fuel nk rewards t reset _ _ _ _ _ e
              (trace s ++ [DateNow]) Hpages Hfuel Hb) as (k & w'' & ->).
  simpl. exists k, w''. by rewrite <- app_assoc.
Qed.

End RunProperties.

Section DistributionProperties.
Context `{Engine} {W : Type}.
Implicit Types (nk : Nakama W) (s : State W) (b : Batches).
#[local] Arguments scanRecords : simpl never.




End DistributionProperties.

Section FuelProperties.
Context `{Engine} {W : Type}.
Implicit Types (nk : Nakama W) (s : State W) (b : Batches).
#[local] Arguments scanRecords : simpl never.

(** More fuel does not change a run that has ended: the fuel only cuts
    off scans that have not reached an absent cursor yet. *)
Lemma distribution_fuel (n m : nat) nk (rewards : JsVal) (t : Tournament) (reset : Z) s :
  (distribution n nk rewards t reset s).1 <> OutOfFuel ->
  (n <= m)%nat ->
  distribution m nk rewards t reset s = distribution n nk rewards t reset s.
Proof.
  unfold distribution. run_unfold. simpl.
  destruct (clock nk (host s)) as [t0 w0]. simpl.
  intros Hends Hle.
  rewrite (scanRecords_fuel n m); [done | | done].
  by destruct (scanRecords n _ _ _ _ _ _ _) as [[b' | e |] s1].
Qed.

Lemma distributeEventRewards_fuel (n m : nat) (ctx : Context) nk (t : Tournament)
    (end_ reset : Z) s :
  (distributeEventRewards n ctx nk t end_ reset s).1 <> OutOfFuel ->
  (n <= m)%nat ->
  distributeEventRewards m ctx nk t end_ reset s
    = distributeEventRewards n ctx nk t end_ reset s.
Proof.
  rewrite !distributeEventRewards_unfold. simpl.
  destruct (truthy _); [| done].
  intros Hends Hle. rewrite (distribution_fuel n m); [done | | done].
  by destruct (distribution n _ _ _ _ _) as [[[] | e |] s'].
Qed.

End FuelProperties.

Lemma leaderboard_cons (c : string) (rs : list LeaderboardRecord)
    (rest : list (string * list LeaderboardRecord)) :
  leaderboard ((c, rs) :: rest) = rs ++ leaderboard rest.
Proof. reflexivity. Qed.


Lemma wallet_batches_cons (c : Call) (tr : list Call) :
  wallet_batches (c :: tr) =
    option_list (match c with WalletsUpdate ups flag => Some (ups, flag) | _ => None end)
      ++ wallet_batches tr.
Proof. by destruct c. Qed.

(** A listing over a stable leaderboard hands out, from the first cursor
    on, pages that lay out exactly that leaderboard. *)
Lemma stable_pages_Pages (size : nat) (board : list LeaderboardRecord)
    (objects : list StorageObject) (tournaments : list Tournament) (users : list User)
    (tournamentId : string) (reset : Z) :
  (0 < size)%nat ->
  exists pages,
    Pages (quiet_host (stable_pages size board) objects tournaments users)
      tournamentId reset (Some EmptyString) tt pages tt /\
    leaderboard pages = board.
Proof.
  intros Hsize.
  set (nk := quiet_host (stable_pages size board) objects tournaments users).
  assert (Hgen : forall (n : nat) (c : string),
    (length board - String.length c * size <= n)%nat ->
    exists pages,
      Pages nk tournamentId reset (Some c) tt pages tt /\
      leaderboard pages = drop (String.length c * size) board).
  { induction n as [| n IH]; intros c Hn.
    - eexists [(c, _)]. split.
      + eapply Pages_page; [reflexivity |]. simpl.
        destruct (Nat.ltb_spec ((String.length c + 1) * size) (length board)); [nia |].
        constructor.
      + rewrite leaderboard_cons. simpl. rewrite app_nil_r.
        rewrite drop_ge by nia. by rewrite take_nil.
    - destruct (Nat.ltb_spec ((String.length c + 1) * size) (length board)) as [Hlt | Hge].
      + destruct (IH (String "x"%char c)) as (rest & Hrest & Hboard).
        { simpl. nia. }
        eexists ((c, _) :: rest). split.
        * eapply Pages_page; [reflexivity |]. simpl.
          destruct (Nat.ltb_spec ((String.length c + 1) * size) (length board)); [| nia].
          exact Hrest.
        * rewrite leaderboard_cons, Hboard. simpl.
          replace (size + String.length c * size)%nat
            with (String.length c * size + size)%nat by nia.
          rewrite <- drop_drop. apply take_drop.
      + eexists [(c, _)]. split.
        * eapply Pages_page; [reflexivity |]. simpl.
          destruct (Nat.ltb_spec ((String.length c + 1) * size) (length board)); [nia |].
          constructor.
        * rewrite leaderboard_cons. simpl. rewrite app_nil_r.
          apply take_ge. rewrite length_drop. nia. }
  destruct (Hgen (length board) EmptyString) as (pages & Hpages & Hboard); [simpl; lia |].
  exists pages. split; [done |]. by rewrite Hboard.
Qed.

(** C3: [distributeEventRewards] never throws, whatever the tournament and
    whatever the collaborators do: its run returns, or is still in the
    scan when the fuel is spent.  When the tournament has no rewards in
    its metadata (or a falsy value), it returns after two log lines without
    a call to a collaborator; and an exception that leaves the [try] block,
    raised by the listing, by the reward lookup on a record, by the wallet
    or notification batch or by the metrics timer, is logged and
    swallowed. *)
Theorem distributeEventRewards_contained `{Engine} {W : Type} (fuel : nat)
    (ctx : Context) (nk : Nakama W) (t : Tournament) (end_ reset : Z) (s : State W) :
  let rewards := default JUndefined (metadata t !! "rewards") in
  let started :=
    mkState (host s)
      (trace s ++ [LoggerDebug "Distributing event rewards for %s" [id t]]) in
  (forall e, (distributeEventRewards fuel ctx nk t end_ reset s).1 <> Thrown e) /\
  (truthy rewards = false ->
   distributeEventRewards fuel ctx nk t end_ reset s =
     (Returned tt,
      mkState (host s)
        (trace started ++ [LoggerDebug "No rewards are defined for %s" [id t]]))) /\
  (forall e s',
     truthy rewards = true ->
     distribution fuel nk rewards t reset started = (Thrown e, s') ->
     distributeEventRewards fuel ctx nk t end_ reset s =
       (Returned tt,
        mkState (host s')
          (trace s' ++ [LoggerError "Error while distributing rewards: %s" [message e]]))).
Proof.
  simpl. rewrite distributeEventRewards_unfold. simpl.
  split; [| split].
  - intros e. destruct (truthy _); [| done].
    by destruct (distribution _ _ _ _ _ _) as [[[] | e' |] s'].
  - by intros ->.
  - by intros e s' -> ->.
Qed.

Lemma distributeEventRewards_contained_witness :
  (@distributeEventRewards sample_engine unit 3 (mkContext None)
     (quiet_host failing_pages [] [] []) unrewarded_event 0 259200 (mkState tt [])).1
    = Returned tt /\
  (@distributeEventRewards sample_engine unit 3 (mkContext None)
     (quiet_host failing_pages [] [] []) (sample_event sample_rewards) 0 259200
     (mkState tt [])).1 = Returned tt /\
  (@distributeEventRewards sample_engine unit 3 (mkContext None)
     (quiet_host (stable_pages 100 sample_board) [] [] [])
     (sample_event first_only_rewards) 0 259200 (mkState tt [])).1 = Returned tt.
Proof.
  split; [| split].
  - rewrite (proj1 (proj2 (@distributeEventRewards_contained sample_engine unit 3
               (mkContext None) (quiet_host failing_pages [] [] []) unrewarded_event
               0 259200 (mkState tt [])))); reflexivity.
  - erewrite (proj2 (proj2 (@distributeEventRewards_contained sample_engine unit 3
               (mkContext None) (quiet_host failing_pages [] [] [])
               (sample_event sample_rewards) 0 259200 (mkState tt []))));
      reflexivity.
  - erewrite (proj2 (proj2 (@distributeEventRewards_contained sample_engine unit 3
               (mkContext None) (quiet_host (stable_pages 100 sample_board) [] [] [])
               (sample_event first_only_rewards) 0 259200 (mkState tt []))));
      reflexivity.
Defined.





(** The first end-to-end scenario of the specification, as the code runs
    it: a table with a first tier only and records ranked 1, 2, 3 with
    scores 50, 30, 0.  The lookup for the second record throws, the scan
    ends there, and the hook returns after logging the error: no wallet
    batch and no notification batch is submitted, for the first player
    either. *)
Example first_tier_only_pays_nobody :
  @distributeEventRewards sample_engine unit 1 (mkContext None)
    (quiet_host (stable_pages 100
       [ {| ownerId := "ada"; score := 50; rank := 1 |};
         {| ownerId := "bob"; score := 30; rank := 2 |};
         {| ownerId := "cy"; score := 0; rank := 3 |} ]) [] [] [])
    (sample_event first_only_rewards) 0 259200 (mkState tt [])
  = (Returned tt,
     mkState tt
       [ LoggerDebug "Distributing event rewards for %s" ["live_event_1"%string];
         DateNow;
         TournamentRecordsList (JStr "live_event_1") [] (JNum (Fin 100))
           (Some EmptyString) (Some 259200);
         LoggerError "Error while distributing rewards: %s"
           ["Cannot read property 'coins' of undefined"%string] ]).
Proof. reflexivity. Qed.

(** ** The bucketed view *)

Section BucketProperties.
Context `{Engine} {W : Type}.
Implicit Types (nk : Nakama W) (s : State W).

Lemma stale_iff (userBucket : UserBucketStorageObject) (t : Tournament) :
  stale userBucket t = true <->
  resetTimeUnix userBucket <> endActive t \/ (length (userIds userBucket) < 15)%nat.
Proof.
  unfold stale, bucketSize. rewrite orb_true_iff, negb_true_iff.
  rewrite Z.eqb_neq, Z.ltb_lt. lia.
Qed.

Lemma stale_false_iff (userBucket : UserBucketStorageObject) (t : Tournament) :
  stale userBucket t = false <->
  resetTimeUnix userBucket = endActive t /\ (15 <= length (userIds userBucket))%nat.
Proof.
  unfold stale, bucketSize. rewrite orb_false_iff, negb_false_iff.
  rewrite Z.eqb_eq, Z.ltb_ge. lia.
Qed.

Lemma truthy_nonempty (self : string) : self <> EmptyString -> truthy (JStr self) = true.
Proof. intros Hne. simpl. by destruct self. Qed.

(** A fresh bucket is reused: no sampling, no write, and the listing is
    asked for the stored members followed by the caller. *)
Lemma getBucketedTournamentRpc_reuse (ctx : Context) nk (payload : string) (w : W)
    (self : string) (tid limit : JsVal) (objects : list StorageObject)
    (t0 : Tournament) (w2 : W) :
  reaches_test ctx nk payload w self tid limit objects t0 w2 ->
  stale (stored_bucket objects) t0 = false ->
  let tr := trace (getBucketedTournamentRpc ctx nk payload (mkState w [])).2 in
  samplings tr = [] /\ storage_writes tr = [] /\
  cohorts tr = [userIds (stored_bucket objects) ++ [self]].
Proof.
  intros (message & ts & w1 & Hctx & Hself & Hparse & Hid & Hlimit & Hread & Hget) Hstale.
  simpl. unfold getBucketedTournamentRpc. rewrite Hctx, (truthy_nonempty _ Hself). simpl.
  run_unfold. simpl. rewrite Hparse. simpl. rewrite Hid. simpl. rewrite Hlimit. simpl.
  rewrite Hread. simpl. rewrite Hget. simpl. rewrite Hstale. simpl.
  destruct (tournamentRecordsList nk _ _ _ _ _ w2) as [[[answer |] | e] w3]; simpl; done.
Qed.

(** A stale bucket is regenerated: one sampling of 15, then one write
    of the sampled ids under the event's reset time, then the listing for
    the sampled ids followed by the caller. *)
Lemma getBucketedTournamentRpc_regenerate (ctx : Context) nk (payload : string) (w : W)
    (self : string) (tid limit : JsVal) (objects : list StorageObject)
    (t0 : Tournament) (w2 : W) :
  reaches_test ctx nk payload w self tid limit objects t0 w2 ->
  stale (stored_bucket objects) t0 = true ->
  let tr := trace (getBucketedTournamentRpc ctx nk payload (mkState w [])).2 in
  samplings tr = [15] /\
  forall (users : list User) (w3 : W),
    usersGetRandom nk 15 w2 = (Normal users, w3) ->
    let fresh := {| resetTimeUnix := endActive t0; userIds := user_userId <$> users |} in
    storage_writes tr = [bucket_write self fresh] /\
    forall w4 : W,
      storageWrite nk (bucket_write self fresh) w3 = (Normal tt, w4) ->
      cohorts tr = [userIds fresh ++ [self]].
Proof.
  intros (message & ts & w1 & Hctx & Hself & Hparse & Hid & Hlimit & Hread & Hget) Hstale.
  simpl. unfold getBucketedTournamentRpc. rewrite Hctx, (truthy_nonempty _ Hself). simpl.
  run_unfold. simpl. rewrite Hparse. simpl. rewrite Hid. simpl. rewrite Hlimit. simpl.
  rewrite Hread. simpl. rewrite Hget. simpl. rewrite Hstale. simpl.
  unfold bucketSize.
  destruct (usersGetRandom nk 15 w2) as [[users0 | e] w3'] eqn:Hsample; simpl.
  - split.
    + destruct (storageWrite nk _ w3') as [[[] | e] w4']; simpl; [| done].
      by destruct (tournamentRecordsList nk _ _ _ _ _ w4') as [[[answer |] | e] w5].
    + intros users w3 [= <- <-]. split.
      * destruct (storageWrite nk _ w3') as [[[] | e] w4']; simpl; [| done].
        by destruct (tournamentRecordsList nk _ _ _ _ _ w4') as [[[answer |] | e] w5].
      * intros w4 ->. simpl.
        by destruct (tournamentRecordsList nk _ _ _ _ _ w4) as [[[answer |] | e] w5].
  - split; [done |]. intros users w3 [=].
Qed.

End BucketProperties.

(** C1: in a run of [getBucketedTournamentRpc] that reaches the test of the
    bucket, the cohort is regenerated exactly when the stored bucket's
    [resetTimeUnix] differs from the event's [endActive] or the stored
    member list has fewer than 15 ids.  Then the sampler is asked once,
    for 15 users, and once it has answered there is exactly one storage
    write, of the sampled ids under the event's [endActive].  Otherwise
    there is no sampling and no storage write, and the listing is asked
    for the stored members, unchanged, followed by the caller. *)
Theorem bucket_regenerated_when_stale `{Engine} {W : Type} (ctx : Context)
    (nk : Nakama W) (payload : string) (w : W) (self : string) (tid limit : JsVal)
    (objects : list StorageObject) (t0 : Tournament) (w2 : W) :
  reaches_test ctx nk payload w self tid limit objects t0 w2 ->
  let stored := stored_bucket objects in
  let tr := trace (getBucketedTournamentRpc ctx nk payload (mkState w [])).2 in
  (resetTimeUnix stored <> endActive t0 \/ (length (userIds stored) < 15)%nat ->
   samplings tr = [15] /\
   forall (users : list User) (w3 : W),
     usersGetRandom nk 15 w2 = (Normal users, w3) ->
     storage_writes tr =
       [bucket_write self {| resetTimeUnix := endActive t0;
                             userIds := user_userId <$> users |}]) /\
  (resetTimeUnix stored = endActive t0 /\ (15 <= length (userIds stored))%nat ->
   samplings tr = [] /\ storage_writes tr = [] /\
   cohorts tr = [userIds stored ++ [self]]).
Proof.
  intros Hreach. simpl. split.
  - intros Hstale. apply stale_iff in Hstale.
    destruct (getBucketedTournamentRpc_regenerate _ _ _ _ _ _ _ _ _ _ Hreach Hstale)
      as [Hsample Hwrite].
    split; [exact Hsample |]. intros users w3 Husers.
    by destruct (Hwrite users w3 Husers) as [Hw _].
  - intros Hfresh. apply stale_false_iff in Hfresh.
    exact (getBucketedTournamentRpc_reuse _ _ _ _ _ _ _ _ _ _ Hreach Hfresh).
Qed.

Lemma bucket_regenerated_when_stale_witness :
  (let tr := trace (@getBucketedTournamentRpc sample_engine unit (mkContext (Some "me"%string))
                      (bucket_host [] small_population) "request" (mkState tt [])).2 in
   samplings tr = [15] /\
   storage_writes tr =
     [bucket_write "me" {| resetTimeUnix := 259200;
                           userIds := ["ann"; "me"; "zed"]%string |}]) /\
  (let tr := trace (@getBucketedTournamentRpc sample_engine unit (mkContext (Some "me"%string))
                      (bucket_host [mkObject full_bucket] small_population) "request"
                      (mkState tt [])).2 in
   samplings tr = [] /\ storage_writes tr = [] /\
   cohorts tr = [userIds full_bucket ++ ["me"%string]]).
Proof.
  split.
  - assert (Hreach : @reaches_test sample_engine unit (mkContext (Some "me"%string))
              (bucket_host [] small_population) "request" tt "me"
              (JStr "live_event_2") (JNum (Fin 32)) [] sample_tournament tt).
    { eexists _, _, _. repeat split; try reflexivity. discriminate. }
    destruct (proj1 (@bucket_regenerated_when_stale sample_engine unit _ _ _ _ _ _ _ _ _ _
                       Hreach) ltac:(right; simpl; lia)) as [Hsample Hwrite].
    split; [exact Hsample |]. exact (Hwrite small_population tt eq_refl).
  - assert (Hreach : @reaches_test sample_engine unit (mkContext (Some "me"%string))
              (bucket_host [mkObject full_bucket] small_population) "request" tt "me"
              (JStr "live_event_2") (JNum (Fin 32)) [mkObject full_bucket]
              sample_tournament tt).
    { eexists _, _, _. repeat split; try reflexivity. discriminate. }
    exact (proj2 (@bucket_regenerated_when_stale sample_engine unit _ _ _ _ _ _ _ _ _ _
                    Hreach) ltac:(split; [reflexivity | simpl; lia])).
Defined.

(** C5, as the code has it: in a run of [getBucketedTournamentRpc] that
    reaches the test of the bucket, the cohort passed to the listing is
    the member list of the bucket, the stored one when the bucket is
    reused and the sampled ids when it is regenerated, followed by the
    caller's own id; so it holds that id once more than the member list
    does, exactly once when the member list is without it.  The member
    list written on a regeneration is the sampled ids as they are, without
    the appended id of the caller. *)
Theorem cohort_appends_self `{Engine} {W : Type} (ctx : Context)
    (nk : Nakama W) (payload : string) (w : W) (self : string) (tid limit : JsVal)
    (objects : list StorageObject) (t0 : Tournament) (w2 : W) :
  reaches_test ctx nk payload w self tid limit objects t0 w2 ->
  let stored := stored_bucket objects in
  let tr := trace (getBucketedTournamentRpc ctx nk payload (mkState w [])).2 in
  (stale stored t0 = false ->
   storage_writes tr = [] /\
   cohorts tr = [userIds stored ++ [self]]) /\
  (stale stored t0 = true ->
   forall (users : list User) (w3 : W),
     usersGetRandom nk 15 w2 = (Normal users, w3) ->
     let sampled := user_userId <$> users in
     let fresh := {| resetTimeUnix := endActive t0; userIds := sampled |} in
     storage_writes tr = [bucket_write self fresh] /\
     forall w4 : W,
       storageWrite nk (bucket_write self fresh) w3 = (Normal tt, w4) ->
       cohorts tr = [sampled ++ [self]]) /\
  (forall members : list string,
     count_occ string_dec (members ++ [self]) self
       = S (count_occ string_dec members self) /\
     (~ In self members -> count_occ string_dec (members ++ [self]) self = 1%nat)).
Proof.
  intros Hreach. simpl. split; [| split].
  - intros Hfresh.
    by destruct (getBucketedTournamentRpc_reuse _ _ _ _ _ _ _ _ _ _ Hreach Hfresh)
      as (_ & Hw & Hc).
  - intros Hstale users w3 Husers.
    destruct (getBucketedTournamentRpc_regenerate _ _ _ _ _ _ _ _ _ _ Hreach Hstale)
      as [_ Hwrite].
    exact (Hwrite users w3 Husers).
  - intros members.
    assert (Hcount : count_occ string_dec (members ++ [self]) self
                     = S (count_occ string_dec members self)).
    { rewrite count_occ_app. simpl. destruct (string_dec self self); [lia | done]. }
    split; [exact Hcount |].
    intros Hnotin. rewrite Hcount. f_equal. by apply count_occ_not_In.
Qed.

Lemma cohort_appends_self_witness :
  let tr := trace (@getBucketedTournamentRpc sample_engine unit (mkContext (Some "me"%string))
                     (bucket_host [mkObject full_bucket] small_population) "request"
                     (mkState tt [])).2 in
  storage_writes tr = [] /\
  cohorts tr = [userIds full_bucket ++ ["me"%string]] /\
  count_occ string_dec (userIds full_bucket ++ ["me"%string]) "me" = 1%nat.
Proof.
  assert (Hreach : @reaches_test sample_engine unit (mkContext (Some "me"%string))
            (bucket_host [mkObject full_bucket] small_population) "request" tt "me"
            (JStr "live_event_2") (JNum (Fin 32)) [mkObject full_bucket]
            sample_tournament tt).
  { eexists _, _, _. repeat split; try reflexivity. discriminate. }
  pose proof (@cohort_appends_self sample_engine unit _ _ _ _ _ _ _ _ _ _ Hreach)
    as (Hreuse & _ & Hcount).
  destruct (Hreuse eq_refl) as [Hw Hc].
  split; [exact Hw |]. split; [exact Hc |].
  apply (Hcount (userIds full_bucket)).
  simpl. intros Hin. repeat (destruct Hin as [Hin | Hin]; [discriminate Hin |]). exact Hin.
Defined.

(** C5, as it is stated, fails: with a population of three that holds the
    caller, the sampler returns the caller's id, the written member list
    holds it, and the cohort passed to the listing holds it twice. *)
Lemma cohort_self_once_counterexample :
  let tr := trace (@getBucketedTournamentRpc sample_engine unit (mkContext (Some "me"%string))
                     (bucket_host [] small_population) "request" (mkState tt [])).2 in
  let cohort := ["ann"; "me"; "zed"; "me"]%string in
  let written := {| resetTimeUnix := 259200; userIds := ["ann"; "me"; "zed"]%string |} in
  cohorts tr = [cohort] /\
  storage_writes tr = [bucket_write "me" written] /\
  count_occ string_dec cohort "me" = 2%nat /\
  In "me"%string (userIds written) /\
  ~ (count_occ string_dec cohort "me" = 1%nat /\ ~ In "me"%string (userIds written)).
Proof.
  simpl. split; [reflexivity |]. split; [reflexivity |]. split; [reflexivity |].
  split; [right; left; reflexivity |].
  intros [Hcount _]. vm_compute in Hcount. discriminate Hcount.
Qed.

(** X17: two calls in one reset cycle, on a host that keeps what is
    written and has fifteen users to draw: the second call reuses the
    bucket that the first has left, samples and writes nothing, and asks
    for the same cohort. *)
Lemma second_call_reuses `{Engine} (store : gmap string UserBucketStorageObject)
    (users : list User) (t0 : Tournament) (ts : list Tournament)
    (self payload : string) (message tid limit : JsVal) :
  self <> EmptyString ->
  JSON_parse payload = Normal message ->
  message.["id"] = Normal tid -> message.["limit"] = Normal limit ->
  (15 <= length users)%nat ->
  let nk := store_host (t0 :: ts) users in
  let ctx := mkContext (Some self) in
  let first := getBucketedTournamentRpc ctx nk payload (mkState store []) in
  let second := getBucketedTournamentRpc ctx nk payload (mkState (host first.2) []) in
  samplings (trace second.2) = [] /\
  storage_writes (trace second.2) = [] /\
  cohorts (trace second.2) = cohorts (trace first.2).
Proof.
  intros Hself Hparse Hid Hlimit Husers nk ctx first second.
  subst first second ctx. unfold getBucketedTournamentRpc. cbn [userId].
  rewrite !(truthy_nonempty _ Hself). subst nk. simpl.
  run_unfold. simpl. rewrite Hparse. simpl. rewrite Hid. simpl. rewrite Hlimit. simpl.
  assert (Hfresh : forall n : nat, n = 15%nat ->
            stale {| resetTimeUnix := endActive t0;
                     userIds := user_userId <$> take n users |} t0 = false).
  { intros n ->. apply stale_false_iff. simpl. split; [done |].
    rewrite length_fmap, length_take. lia. }
  destruct (store !! self) as [bucket |] eqn:Hlookup; simpl.
  - destruct (stale bucket t0) eqn:Hstale; simpl.
    + rewrite lookup_insert_eq. simpl.
      erewrite Hfresh by reflexivity. simpl. done.
    + rewrite Hlookup. simpl. rewrite Hstale. simpl. done.
  - assert (Hempty : stale {| resetTimeUnix := 0; userIds := [] |} t0 = true).
    { apply stale_iff. right. simpl. lia. }
    rewrite Hempty. simpl. rewrite lookup_insert_eq. simpl.
    erewrite Hfresh by reflexivity. simpl. done.
Qed.

(** C9: [serverCreateLiveEventRpc] called with an end-user identity throws
    [errPermissionDenied] and leaves the run as it was, without a call to
    the tournament registry or to any other collaborator; a call without
    identity goes on to the construction, and with a payload that parses
    to an object the tournament is created once, with the fixed
    settings. *)
Theorem serverCreateLiveEventRpc_rejects_clients `{Engine} {W : Type} (ctx : Context)
    (nk : Nakama W) (payload : string) (s : State W) :
  (forall u : string,
     userId ctx = Some u -> u <> EmptyString ->
     serverCreateLiveEventRpc ctx nk payload s = (Thrown errPermissionDenied, s)) /\
  (userId ctx = None ->
   forall fields : gmap string JsVal,
     JSON_parse payload = Normal (JObj fields) ->
     creations (trace (serverCreateLiveEventRpc ctx nk payload s).2) =
       creations (trace s) ++ [ {|
         create_id := default JUndefined (fields !! "id");
         authoritative := false;
         sortOrder := "desc";
         operator := "incr";
         duration := default JUndefined (fields !! "duration");
         resetSchedule := JNull;
         create_metadata := {[ "rewards" := default JUndefined (fields !! "rewards") ]};
         create_title := JNull;
         description := JNull;
         category := 1;
         startTime := default JUndefined (fields !! "start_time");
         endTime := 0;
         maxSize := JNull;
         maxNumScore := JNull;
         joinRequired := false |} ]).
Proof.
  split.
  - intros u Hctx Hu. unfold serverCreateLiveEventRpc, userId_value.
    rewrite Hctx, (truthy_nonempty _ Hu). reflexivity.
  - intros Hctx fields Hparse. unfold serverCreateLiveEventRpc, userId_value.
    rewrite Hctx. simpl. run_unfold. simpl. rewrite Hparse. simpl.
    unfold creations.
    destruct (tournamentCreate nk _ (host s)) as [[[] | e] w']; simpl;
      rewrite ?omap_app; simpl; by rewrite ?app_nil_r.
Qed.

Lemma serverCreateLiveEventRpc_rejects_clients_witness :
  @serverCreateLiveEventRpc sample_engine unit (mkContext (Some "me"%string))
    (bucket_host [] []) "request" (mkState tt [])
    = (Thrown errPermissionDenied, mkState tt []) /\
  length (creations (trace (@serverCreateLiveEventRpc sample_engine unit (mkContext None)
                              (bucket_host [] []) "request" (mkState tt [])).2)) = 1%nat.
Proof.
  split.
  - apply (proj1 (@serverCreateLiveEventRpc_rejects_clients sample_engine unit
                    (mkContext (Some "me"%string)) (bucket_host [] []) "request"
                    (mkState tt [])) "me"%string eq_refl).
    discriminate.
  - rewrite (proj2 (@serverCreateLiveEventRpc_rejects_clients sample_engine unit
                      (mkContext None) (bucket_host [] []) "request" (mkState tt []))
               eq_refl _ eq_refl).
    reflexivity.
Defined.

(** * Further properties *)

(** ** The hook after device authentication *)

(** X1: [initializeUser] never throws and returns the session it was
    given, unchanged, for every session, every caller and every behaviour
    of the wallet: a failed welcome credit does not block the
    authentication, it leaves one error line with the message of the
    failure. *)
Theorem initializeUser_never_blocks {W : Type} (ctx : Context)
    (walletUpdate : WalletOracle W) (out : Session) (data : JsVal) (s : HookState W) :
  let run := initializeUser ctx walletUpdate out data s in
  run.1 = Normal out /\
  (forall (e : Error) (w' : W),
     created out = true ->
     walletUpdate (userId ctx) {| coins := Fin 100 |} JUndefined true (hook_host s)
       = (Abrupt e, w') ->
     run.2 = mkHookState w'
               (hook_trace s ++
                [ WalletUpdateCall (userId ctx) {| coins := Fin 100 |} JUndefined true;
                  HookLoggerError "Error while initializing user: %s" [message e] ])).
Proof.
  simpl. unfold initializeUser, hook_try_catch, hook_call, hook_logger_error.
  unfold mbind, Hook_bind, mret, Hook_ret. simpl.
  destruct (created out); simpl.
  - destruct (walletUpdate _ _ _ _ (hook_host s)) as [[[] | e0] w0] eqn:Hw; simpl.
    + split; [done |]. intros e w' _ [=].
    + split; [done |]. intros e w' _ [= <- <-]. by rewrite <- app_assoc.
  - split; [done |]. intros e w' [=].
Qed.

Lemma initializeUser_never_blocks_witness :
  initializeUser (mkContext (Some "me"%string)) failing_wallet
    (mkSession true "t" "r") JNull (mkHookState tt [])
  = (Normal (mkSession true "t" "r"),
     mkHookState tt
       [ WalletUpdateCall (Some "me"%string) {| coins := Fin 100 |} JUndefined true;
         HookLoggerError "Error while initializing user: %s"
           ["wallet unavailable"%string] ]).
Proof.
  destruct (initializeUser_never_blocks (mkContext (Some "me"%string)) failing_wallet
              (mkSession true "t" "r") JNull (mkHookState tt [])) as [Hout Hfail].
  specialize (Hfail (GoError "wallet unavailable") tt eq_refl eq_refl).
  apply injective_projections; [exact Hout | exact Hfail].
Defined.

(** X2: [initializeUser] credits a player exactly when the session says
    that the account was created by this authentication: then the wallet
    is asked once, for 100 coins to [ctx.userId] with the ledger updated
    and no metadata; for a returning player nothing is called and the host
    is left as it was. *)
Theorem initializeUser_credits_new_players {W : Type} (ctx : Context)
    (walletUpdate : WalletOracle W) (out : Session) (data : JsVal) (w : W) :
  let run := initializeUser ctx walletUpdate out data (mkHookState w []) in
  (created out = true ->
   wallet_credits (hook_trace run.2)
     = [(userId ctx, {| coins := Fin 100 |}, JUndefined, true)] /\
   hook_host run.2
     = (walletUpdate (userId ctx) {| coins := Fin 100 |} JUndefined true w).2) /\
  (created out = false -> run.2 = mkHookState w []).
Proof.
  simpl. unfold initializeUser, hook_try_catch, hook_call, hook_logger_error.
  unfold mbind, Hook_bind, mret, Hook_ret. simpl.
  destruct (created out); simpl.
  - split; [| done]. intros _.
    by destruct (walletUpdate _ _ _ _ w) as [[[] | e0] w0].
  - split; [done |]. done.
Qed.

Lemma initializeUser_credits_new_players_witness :
  wallet_credits (hook_trace (initializeUser (mkContext (Some "me"%string)) working_wallet
                                (mkSession true "t" "r") JNull (mkHookState tt [])).2)
    = [(Some "me"%string, {| coins := Fin 100 |}, JUndefined, true)] /\
  (initializeUser (mkContext (Some "me"%string)) working_wallet
     (mkSession false "t" "r") JNull (mkHookState tt [])).2 = mkHookState tt [].
Proof.
  split.
  - apply (proj1 (initializeUser_credits_new_players (mkContext (Some "me"%string))
                    working_wallet (mkSession true "t" "r") JNull tt) eq_refl).
  - apply (proj2 (initializeUser_credits_new_players (mkContext (Some "me"%string))
                    working_wallet (mkSession false "t" "r") JNull tt) eq_refl).
Defined.

(** ** More on the reward lookup *)

Lemma round_half_up_proper (q q' : Q) : (q == q')%Q -> round_half_up q = round_half_up q'.
Proof. intros Heq. unfold round_half_up. by rewrite Heq. Qed.

Lemma round_half_up_integer (z : Z) : round_half_up (inject_Z z) = z.
Proof.
  destruct (round_half_up_bounds (inject_Z z)) as [Hlo Hhi].
  set (r := round_half_up (inject_Z z)) in *.
  assert (H1 : (inject_Z r < inject_Z (z + 1))%Q).
  { rewrite inject_Z_plus. change (inject_Z 1) with 1%Q. lra. }
  assert (H2 : (inject_Z z < inject_Z (r + 1))%Q).
  { rewrite inject_Z_plus. change (inject_Z 1) with 1%Q. lra. }
  rewrite <- Zlt_Qlt in H1, H2. lia.
Qed.

Lemma round_half_up_half (z : Z) : round_half_up (inject_Z z + (1 # 2)) = z + 1.
Proof.
  destruct (round_half_up_bounds (inject_Z z + (1 # 2))) as [Hlo Hhi].
  set (r := round_half_up (inject_Z z + (1 # 2))) in *.
  assert (H1 : (inject_Z r < inject_Z (z + 2))%Q).
  { rewrite inject_Z_plus. change (inject_Z 2) with 2%Q. lra. }
  assert (H2 : (inject_Z z < inject_Z r)%Q) by lra.
  rewrite <- Zlt_Qlt in H1, H2. lia.
Qed.

(** X3: a table that is not an object (a number, a string, a boolean,
    an array as well as [null] or [undefined]) makes [getReward] throw a
    TypeError for every record that has scored, whatever its rank. *)
Theorem getReward_table_not_object `{Engine} (rewards : JsVal) (rank score : Z) :
  score <> 0 ->
  (forall fields, rewards <> JObj fields) ->
  exists msg, getReward rewards rank score = Abrupt (TypeError msg).
Proof.
  intros Hscore Hshape. rewrite getReward_tier by done.
  destruct rewards; simpl; eauto. by destruct (Hshape fields).
Qed.

Lemma getReward_table_not_object_witness :
  exists msg,
    @getReward sample_engine (JNum (Fin 5)) 1 10 = Abrupt (TypeError msg).
Proof.
  apply (@getReward_table_not_object sample_engine (JNum (Fin 5)) 1 10); [lia | done].
Defined.

(** X4: a tier that is there but has no [coins] does not make
    [getReward] throw: the reward it returns for a scored record carries
    NaN, which is no integer; a tier whose [coins] is [null] pays 0. *)
Theorem getReward_tier_without_coins `{Engine} (fields tier_fields : gmap string JsVal)
    (rank score : Z) :
  score <> 0 ->
  fields !! tier_of_rank rank = Some (JObj tier_fields) ->
  (tier_fields !! "coins" = None \/ tier_fields !! "coins" = Some JUndefined ->
   getReward (JObj fields) rank score = Normal (Some {| coins := NaN |}) /\
   ~ is_integer NaN) /\
  (tier_fields !! "coins" = Some JNull ->
   getReward (JObj fields) rank score = Normal (Some {| coins := Fin (inject_Z 0) |})).
Proof.
  intros Hscore Htier. rewrite getReward_tier by done. simpl. rewrite Htier. simpl.
  split.
  - intros Hcoins. split; [| by intros [z Hz]].
    by destruct Hcoins as [-> | ->].
  - by intros ->.
Qed.

Lemma getReward_tier_without_coins_witness :
  @getReward sample_engine (JObj {[ "second" := JObj ∅ ]}) 2 30
    = Normal (Some {| coins := NaN |}).
Proof.
  destruct (@getReward_tier_without_coins sample_engine
              {[ "second" := JObj ∅ ]} ∅ 2 30) as [Hnan _]; [lia | reflexivity |].
  apply Hnan. by left.
Defined.

(** X5: an amount that is configured as a whole number is paid as it is,
    zero and negative amounts included, and an amount half way between two
    whole numbers is paid as the greater one. *)
Theorem getReward_integral_amounts `{Engine} (rewards : JsVal) (rank score z : Z) (q : Q) :
  score <> 0 ->
  configured rewards (tier_of_rank rank) q ->
  ((q == inject_Z z)%Q ->
   getReward rewards rank score = Normal (Some {| coins := Fin (inject_Z z) |})) /\
  ((q == inject_Z z + (1 # 2))%Q ->
   getReward rewards rank score = Normal (Some {| coins := Fin (inject_Z (z + 1)) |})).
Proof.
  intros Hscore Hconf. rewrite (getReward_configured _ _ _ _ Hscore Hconf).
  split; intros Hq; rewrite (round_half_up_proper _ _ Hq).
  - by rewrite round_half_up_integer.
  - by rewrite round_half_up_half.
Qed.

Lemma getReward_integral_amounts_witness :
  @getReward sample_engine sample_rewards 2 30
    = Normal (Some {| coins := Fin (inject_Z 200) |}) /\
  @getReward sample_engine fractional_rewards 7 30
    = Normal (Some {| coins := Fin (inject_Z (-2)) |}).
Proof.
  split.
  - apply (proj1 (@getReward_integral_amounts sample_engine sample_rewards 2 30 200 200
                    ltac:(lia) ltac:(eexists _, _; split; [reflexivity |];
                                     split; reflexivity))).
    reflexivity.
  - apply (proj2 (@getReward_integral_amounts sample_engine fractional_rewards 7 30 (-3)
                    (-5 # 2) ltac:(lia) ltac:(eexists _, _; split; [reflexivity |];
                                             split; reflexivity))).
    reflexivity.
Defined.

(** ** More on the sort of the owner records *)

Section SortMore.

Lemma sort_insert_filter_score (s : Z) (a : LeaderboardRecord) (l : list LeaderboardRecord) :
  filter (fun r => score r = s) (sort_insert by_score a l)
    = filter (fun r => score r = s) (a :: l).
Proof.
  induction l as [| b l IH]; simpl; [done |].
  destruct (Z.ltb_spec 0 (by_score a b)) as [Hlt | Hge]; [| done].
  unfold by_score in Hlt.
  rewrite filter_cons, IH, !filter_cons.
  destruct (decide (score b = s)) as [Hb | Hb];
    destruct (decide (score a = s)) as [Ha | Ha]; try done.
  lia.
Qed.

Lemma Array_sort_filter_score (s : Z) (l : list LeaderboardRecord) :
  filter (fun r => score r = s) (Array_sort by_score l)
    = filter (fun r => score r = s) l.
Proof.
  induction l as [| a l IH]; simpl; [done |].
  by rewrite sort_insert_filter_score, !filter_cons, IH.
Qed.

Lemma imap_filter_score (s : Z) (f : nat -> LeaderboardRecord -> LeaderboardRecord)
    (l : list LeaderboardRecord) :
  (forall i r, standing (f i r) = standing r) ->
  standing <$> filter (fun r => score r = s) (imap f l)
    = standing <$> filter (fun r => score r = s) l.
Proof.
  revert f. induction l as [| a l IH]; intros f Hf; simpl; [done |].
  rewrite !filter_cons.
  assert (Hscore : score (f 0%nat a) = score a).
  { specialize (Hf 0%nat a). by injection Hf. }
  rewrite Hscore.
  destruct (decide (score a = s)); simpl; rewrite IH; try done;
    try (intros i r; apply Hf).
  by rewrite Hf.
Qed.

Lemma Array_sort_fmap (f : LeaderboardRecord -> LeaderboardRecord)
    (l : list LeaderboardRecord) :
  (forall r, score (f r) = score r) ->
  Array_sort by_score (f <$> l) = f <$> Array_sort by_score l.
Proof.
  intros Hf.
  assert (Hins : forall a k, sort_insert by_score (f a) (f <$> k)
                             = f <$> sort_insert by_score a k).
  { intros a k. induction k as [| b k IH]; [done |].
    rewrite fmap_cons. simpl.
    assert (Hcmp : by_score (f a) (f b) = by_score a b)
      by (unfold by_score; by rewrite !Hf).
    rewrite Hcmp.
    destruct (0 <? by_score a b); [| done].
    rewrite IH. by rewrite fmap_cons. }
  induction l as [| a l IH]; [done |].
  rewrite fmap_cons. simpl. by rewrite IH, Hins.
Qed.

Lemma SortRecords_unranked (l : list LeaderboardRecord) :
  SortRecords (Some (unranked <$> l)) = SortRecords (Some l).
Proof.
  unfold SortRecords. simpl. f_equal.
  rewrite Array_sort_fmap by done. rewrite imap_fmap.
  apply imap_ext. by intros i [o s k] _.
Qed.

Lemma unranked_standing (l l' : list LeaderboardRecord) :
  standing <$> l = standing <$> l' -> unranked <$> l = unranked <$> l'.
Proof.
  revert l'. induction l as [| a l IH]; intros [| a' l']; simpl; try done.
  intros [= Ho Hs Hl]. f_equal; [| by apply IH].
  unfold unranked. by rewrite Ho, Hs.
Qed.

End SortMore.

(** X6: the sort is stable: among the records of one score, [SortRecords]
    keeps the players in the order in which it received them, so that ties
    are ranked by their place in the input. *)
Theorem SortRecords_stable (l sorted : list LeaderboardRecord) (s : Z) :
  SortRecords (Some l) = Some sorted ->
  standing <$> filter (fun r => score r = s) sorted
    = standing <$> filter (fun r => score r = s) l.
Proof.
  unfold SortRecords. simpl. intros [= <-].
  rewrite imap_filter_score by by intros i [o sc k].
  by rewrite Array_sort_filter_score.
Qed.

Lemma SortRecords_stable_witness :
  exists sorted,
    SortRecords (Some [ {| ownerId := "bob"; score := 70; rank := 9 |};
                        {| ownerId := "cy"; score := 90; rank := 9 |};
                        {| ownerId := "ada"; score := 70; rank := 9 |} ])
      = Some sorted /\
    standing <$> filter (fun r => score r = 70) sorted
      = [("bob"%string, 70); ("ada"%string, 70)].
Proof.
  eexists. split; [reflexivity |].
  etransitivity.
  - apply (SortRecords_stable
             [ {| ownerId := "bob"; score := 70; rank := 9 |};
               {| ownerId := "cy"; score := 90; rank := 9 |};
               {| ownerId := "ada"; score := 70; rank := 9 |} ] _ 70).
    reflexivity.
  - reflexivity.
Defined.

(** X7: the ranks that come in are discarded: two inputs that list the
    same players with the same scores in the same order are sorted into
    the same records with the same ranks, whatever ranks they carried. *)
Theorem SortRecords_ignores_ranks (l l' : list LeaderboardRecord) :
  standing <$> l = standing <$> l' ->
  SortRecords (Some l) = SortRecords (Some l').
Proof.
  intros Hsame.
  rewrite <- (SortRecords_unranked l), <- (SortRecords_unranked l').
  by rewrite (unranked_standing _ _ Hsame).
Qed.

Lemma SortRecords_ignores_ranks_witness :
  SortRecords (Some [ {| ownerId := "bob"; score := 70; rank := 1 |};
                      {| ownerId := "cy"; score := 90; rank := 2 |} ])
  = SortRecords (Some [ {| ownerId := "bob"; score := 70; rank := 40 |};
                        {| ownerId := "cy"; score := 90; rank := -3 |} ]).
Proof. apply SortRecords_ignores_ranks. reflexivity. Defined.

(** ** More on the two RPCs *)

(** Case analysis on everything that a run consults. *)
Ltac run_cases :=
  repeat match goal with
  | |- context [match ?x with _ => _ end] =>
      lazymatch x with
      | context [match _ with _ => _ end] => fail
      | _ => destruct x eqn:?; simpl in *
      end
  | |- context [if ?x then _ else _] =>
      lazymatch x with
      | context [match _ with _ => _ end] => fail
      | context [if _ then _ else _] => fail
      | _ => destruct x eqn:?; simpl in *
      end
  end.

Section RpcProperties.
Context `{Engine} {W : Type}.
Implicit Types (nk : Nakama W) (s : State W).

Lemma getProp_property (msg : JsVal) (k : string) :
  msg <> JNull -> msg <> JUndefined -> msg.[k] = Normal (property msg k).
Proof. by destruct msg. Qed.

Lemma getProp_unusable (k : string) (v : JsVal) :
  v = JNull \/ v = JUndefined -> exists e, v.[k] = Abrupt e.
Proof. intros [-> | ->]; simpl; eauto. Qed.

Lemma errors_differ : errInternal <> errPermissionDenied.
Proof. done. Qed.

Lemma truthy_userId_value (ctx : Context) :
  truthy (userId_value ctx) = true <->
  exists u, userId ctx = Some u /\ u <> EmptyString.
Proof.
  unfold userId_value. destruct (userId ctx) as [u |]; simpl.
  - destruct u; simpl; split; try done.
    + by intros (u & [= <-] & Hu).
    + intros _. eexists. split; [done |]. done.
  - split; [done |]. by intros (u & Hu & _).
Qed.

(** What a call of [serverCreateLiveEventRpc] without identity does. *)
Lemma serverCreateLiveEventRpc_accepts (ctx : Context) nk (payload : string) s :
  truthy (userId_value ctx) = false ->
  let run := serverCreateLiveEventRpc ctx nk payload s in
  (unusable (JSON_parse payload) ->
   exists msg,
     run = (Thrown errInternal,
            mkState (host s)
              (trace s ++ [LoggerError "Error while creating tournament: %s" [msg]]))) /\
  (forall msg,
     JSON_parse payload = Normal msg -> msg <> JNull -> msg <> JUndefined ->
     run = match tournamentCreate nk (creation_of msg) (host s) with
           | (Normal _, w') =>
               (Returned (JObj {[ "success" := JBool true ]}),
                mkState w' (trace s ++ [TournamentCreateCall (creation_of msg)]))
           | (Abrupt e, w') =>
               (Thrown errInternal,
                mkState w'
                  (trace s ++ [TournamentCreateCall (creation_of msg);
                               LoggerError "Error while creating tournament: %s"
                                 [message e]]))
           end).
Proof.
  intros Hctx. simpl. unfold serverCreateLiveEventRpc. rewrite Hctx.
  run_unfold. simpl. split.
  - intros [[e ->] | [-> | ->]]; simpl; eauto.
  - intros msg -> Hnull Hundef.
    rewrite !(getProp_property _ _ Hnull Hundef). simpl.
    fold (creation_of msg).
    destruct (tournamentCreate nk (creation_of msg) (host s)) as [[[] | e] w']; simpl;
      [done |]. by rewrite <- app_assoc.
Qed.

End RpcProperties.

Section RpcOutcomes.
Context `{Engine} {W : Type}.
Implicit Types (nk : Nakama W) (s : State W).

(** A caller with an identity is served by [getBucketedTournamentRpc]:
    the outcome is a result, or [errInternal] after an error line. *)
Lemma getBucketedTournamentRpc_served (ctx : Context) nk (payload : string) s :
  truthy (userId_value ctx) = true ->
  let run := getBucketedTournamentRpc ctx nk payload s in
  (exists result, run.1 = Returned result) \/
  (run.1 = Thrown errInternal /\
   exists tr msg,
     trace run.2
       = tr ++ [LoggerError "Error while getting local tournaments: %s" [msg]]).
Proof.
  intros Hctx. apply truthy_userId_value in Hctx as (self & Hctx & Hself).
  simpl. unfold getBucketedTournamentRpc.
  rewrite Hctx, (truthy_nonempty _ Hself). simpl.
  run_unfold. simpl. unfold first_tournament, listing.
  run_cases; eauto 10.
Qed.

Lemma getBucketedTournamentRpc_refuses (ctx : Context) nk (payload : string) s :
  truthy (userId_value ctx) = false ->
  getBucketedTournamentRpc ctx nk payload s = (Thrown errPermissionDenied, s).
Proof.
  unfold userId_value, getBucketedTournamentRpc.
  destruct (userId ctx) as [u |]; [| done]. by intros ->.
Qed.

Lemma serverCreateLiveEventRpc_refuses (ctx : Context) nk (payload : string) s :
  truthy (userId_value ctx) = true ->
  serverCreateLiveEventRpc ctx nk payload s = (Thrown errPermissionDenied, s).
Proof. unfold serverCreateLiveEventRpc. by intros ->. Qed.

Lemma serverCreateLiveEventRpc_served (ctx : Context) nk (payload : string) s :
  truthy (userId_value ctx) = false ->
  let run := serverCreateLiveEventRpc ctx nk payload s in
  run.1 = Returned (JObj {[ "success" := JBool true ]}) \/
  (run.1 = Thrown errInternal /\
   exists tr msg,
     trace run.2 = tr ++ [LoggerError "Error while creating tournament: %s" [msg]]).
Proof.
  intros Hctx.
  destruct (serverCreateLiveEventRpc_accepts ctx nk payload s Hctx) as [Hbad Hgood].
  simpl in *.
  destruct (JSON_parse payload) as [msg | e] eqn:Hparse.
  - assert (Hshape : msg = JNull \/ msg = JUndefined \/
                      (msg <> JNull /\ msg <> JUndefined))
      by (destruct msg; auto).
    destruct Hshape as [-> | [-> | [Hnull Hundef]]].
    + destruct Hbad as [m ->]; [right; by left | right; eauto].
    + destruct Hbad as [m ->]; [right; by right | right; eauto].
    + rewrite (Hgood msg eq_refl Hnull Hundef).
      destruct (tournamentCreate nk (creation_of msg) (host s)) as [[[] | e] w']; simpl;
        [by left |].
      right. split; [done |]. eexists (trace s ++ [_]), _. by rewrite <- app_assoc.
  - destruct Hbad as [m ->]; [left; eauto | right; eauto].
Qed.

End RpcOutcomes.

(** X8: whatever the caller, the payload and the registry do,
    [serverCreateLiveEventRpc] ends in one of three ways: it returns the
    object [{success: true}], it throws [errPermissionDenied] leaving the
    run as it was, or it throws [errInternal] right after an error line;
    no other error reaches the caller. *)
Theorem serverCreateLiveEventRpc_outcomes `{Engine} {W : Type} (ctx : Context)
    (nk : Nakama W) (payload : string) (s : State W) :
  let run := serverCreateLiveEventRpc ctx nk payload s in
  run.1 = Returned (JObj {[ "success" := JBool true ]}) \/
  run = (Thrown errPermissionDenied, s) \/
  (run.1 = Thrown errInternal /\
   exists tr msg,
     trace run.2 = tr ++ [LoggerError "Error while creating tournament: %s" [msg]]).
Proof.
  simpl. destruct (truthy (userId_value ctx)) eqn:Hctx.
  - right. left. by apply serverCreateLiveEventRpc_refuses.
  - destruct (serverCreateLiveEventRpc_served ctx nk payload s Hctx) as [Hok | Hfail].
    + by left.
    + right. by right.
Qed.

(** X9: a call of [serverCreateLiveEventRpc] without identity reaches
    the registry exactly when the payload parses to a value other than
    [null] and [undefined].  Then [tournamentCreate] is called once, with
    the fields that the message has ([undefined] for those it lacks) and
    the fixed settings, and the call returns [{success: true}] if the
    registry returned and throws [errInternal] if it threw.  A payload
    that does not parse, or parses to [null], ends in [errInternal] with
    the host untouched and nothing created. *)
Theorem serverCreateLiveEventRpc_creation `{Engine} {W : Type} (ctx : Context)
    (nk : Nakama W) (payload : string) (s : State W) :
  truthy (userId_value ctx) = false ->
  let run := serverCreateLiveEventRpc ctx nk payload s in
  (unusable (JSON_parse payload) ->
   run.1 = Thrown errInternal /\ host run.2 = host s /\
   creations (trace run.2) = creations (trace s)) /\
  (forall msg,
     JSON_parse payload = Normal msg -> msg <> JNull -> msg <> JUndefined ->
     creations (trace run.2) = creations (trace s) ++ [creation_of msg] /\
     host run.2 = (tournamentCreate nk (creation_of msg) (host s)).2 /\
     run.1 = match (tournamentCreate nk (creation_of msg) (host s)).1 with
             | Normal _ => Returned (JObj {[ "success" := JBool true ]})
             | Abrupt _ => Thrown errInternal
             end).
Proof.
  intros Hctx.
  destruct (serverCreateLiveEventRpc_accepts ctx nk payload s Hctx) as [Hbad Hgood].
  simpl in *. split.
  - intros Hun. destruct (Hbad Hun) as [m ->]. simpl.
    split; [done |]. split; [done |].
    unfold creations. rewrite omap_app. simpl. by rewrite app_nil_r.
  - intros msg Hparse Hnull Hundef. rewrite (Hgood msg Hparse Hnull Hundef).
    unfold creations.
    destruct (tournamentCreate nk (creation_of msg) (host s)) as [[[] | e] w']; simpl;
      rewrite omap_app; simpl; done.
Qed.

Lemma serverCreateLiveEventRpc_creation_witness :
  (@serverCreateLiveEventRpc sample_engine unit (mkContext None)
     (refusing_registry []) "request" (mkState tt [])).1 = Thrown errInternal /\
  (@serverCreateLiveEventRpc sample_engine unit (mkContext (Some EmptyString))
     (bucket_host [] []) "request" (mkState tt [])).1
    = Returned (JObj {[ "success" := JBool true ]}).
Proof.
  split.
  - destruct (@serverCreateLiveEventRpc_creation sample_engine unit (mkContext None)
                (refusing_registry []) "request" (mkState tt []) eq_refl) as [_ Hgood].
    destruct (Hgood _ eq_refl ltac:(discriminate) ltac:(discriminate))
      as (_ & _ & Hout).
    exact Hout.
  - destruct (@serverCreateLiveEventRpc_creation sample_engine unit
                (mkContext (Some EmptyString)) (bucket_host [] []) "request"
                (mkState tt []) eq_refl) as [_ Hgood].
    destruct (Hgood _ eq_refl ltac:(discriminate) ltac:(discriminate))
      as (_ & _ & Hout).
    exact Hout.
Defined.

(** X10: [getBucketedTournamentRpc] called without an end-user identity
    ([ctx.userId] undefined or the empty string) throws
    [errPermissionDenied] and leaves the run as it was: nothing is parsed,
    read, sampled, written or listed. *)
Theorem getBucketedTournamentRpc_rejects_servers `{Engine} {W : Type} (ctx : Context)
    (nk : Nakama W) (payload : string) (s : State W) :
  userId ctx = None \/ userId ctx = Some EmptyString ->
  getBucketedTournamentRpc ctx nk payload s = (Thrown errPermissionDenied, s).
Proof.
  intros Hctx. apply getBucketedTournamentRpc_refuses.
  unfold userId_value. by destruct Hctx as [-> | ->].
Qed.

Lemma getBucketedTournamentRpc_rejects_servers_witness :
  @getBucketedTournamentRpc sample_engine unit (mkContext None)
    (bucket_host [] small_population) "request" (mkState tt [])
  = (Thrown errPermissionDenied, mkState tt []).
Proof.
  apply (@getBucketedTournamentRpc_rejects_servers sample_engine unit). by left.
Defined.

(** X11: the guards of the two RPCs are complementary: every caller is
    turned away with [errPermissionDenied], with nothing done, by exactly
    one of [serverCreateLiveEventRpc] and [getBucketedTournamentRpc], and
    is served by the other, which never answers that caller with
    [errPermissionDenied]. *)
Theorem rpc_guards_complementary `{Engine} {W : Type} (ctx : Context)
    (nk : Nakama W) (payload payload' : string) (s s' : State W) :
  (serverCreateLiveEventRpc ctx nk payload s = (Thrown errPermissionDenied, s) /\
   (getBucketedTournamentRpc ctx nk payload' s').1 <> Thrown errPermissionDenied) \/
  (getBucketedTournamentRpc ctx nk payload' s' = (Thrown errPermissionDenied, s') /\
   (serverCreateLiveEventRpc ctx nk payload s).1 <> Thrown errPermissionDenied).
Proof.
  destruct (truthy (userId_value ctx)) eqn:Hctx.
  - left. split; [by apply serverCreateLiveEventRpc_refuses |].
    destruct (getBucketedTournamentRpc_served ctx nk payload' s' Hctx)
      as [[result ->] | [-> _]]; done.
  - right. split; [by apply getBucketedTournamentRpc_refuses |].
    destruct (serverCreateLiveEventRpc_served ctx nk payload s Hctx)
      as [-> | [-> _]]; done.
Qed.

(** X12: whatever the caller, the payload and the collaborators do,
    [getBucketedTournamentRpc] ends in one of three ways: it returns a
    result, it throws [errPermissionDenied] leaving the run as it was, or
    it throws [errInternal] right after an error line; the error of a
    collaborator never reaches the caller. *)
Theorem getBucketedTournamentRpc_outcomes `{Engine} {W : Type} (ctx : Context)
    (nk : Nakama W) (payload : string) (s : State W) :
  let run := getBucketedTournamentRpc ctx nk payload s in
  (exists result, run.1 = Returned result) \/
  run = (Thrown errPermissionDenied, s) \/
  (run.1 = Thrown errInternal /\
   exists tr msg,
     trace run.2
       = tr ++ [LoggerError "Error while getting local tournaments: %s" [msg]]).
Proof.
  simpl. destruct (truthy (userId_value ctx)) eqn:Hctx.
  - destruct (getBucketedTournamentRpc_served ctx nk payload s Hctx) as [Hok | Hfail].
    + by left.
    + right. by right.
  - right. left. by apply getBucketedTournamentRpc_refuses.
Qed.

Section BucketMore.
Context `{Engine} {W : Type}.
Implicit Types (nk : Nakama W) (s : State W).

Lemma SortRecords_sorted (owners : option (list LeaderboardRecord))
    (sorted : list LeaderboardRecord) :
  SortRecords owners = Some sorted ->
  descending sorted /\ rank <$> sorted = ranks_upto (length sorted).
Proof.
  destruct owners as [l |]; [| done]. unfold SortRecords. simpl. intros [= <-].
  split.
  - apply imap_descending; [done | apply Array_sort_descending].
  - by rewrite rank_set_rank, length_imap.
Qed.

End BucketMore.

(** X13: when the registry knows no tournament of the requested id
    ([tournamentsGetId] answers with an empty array),
    [getBucketedTournamentRpc] throws [errInternal] after the storage read
    and the lookup: no peers are sampled, nothing is written and no
    listing is requested. *)
Theorem getBucketedTournamentRpc_unknown_tournament `{Engine} {W : Type}
    (ctx : Context) (nk : Nakama W) (payload : string) (w w1 w2 : W)
    (self : string) (message tid limit : JsVal) (objects : list StorageObject) :
  userId ctx = Some self -> self <> EmptyString ->
  JSON_parse payload = Normal message ->
  message.["id"] = Normal tid -> message.["limit"] = Normal limit ->
  storageRead nk (bucket_read self) w = (Normal objects, w1) ->
  tournamentsGetId nk [tid] w1 = (Normal [], w2) ->
  getBucketedTournamentRpc ctx nk payload (mkState w []) =
    (Thrown errInternal,
     mkState w2
       [ StorageRead (bucket_read self);
         TournamentsGetId [tid];
         LoggerError "Error while getting local tournaments: %s"
           ["Cannot read property 'endActive' of undefined"%string] ]).
Proof.
  intros Hctx Hself Hparse Hid Hlimit Hread Hget.
  unfold getBucketedTournamentRpc. rewrite Hctx, (truthy_nonempty _ Hself). simpl.
  run_unfold. simpl. rewrite Hparse. simpl. rewrite Hid. simpl. rewrite Hlimit. simpl.
  rewrite Hread. simpl. rewrite Hget. simpl. done.
Qed.

Lemma getBucketedTournamentRpc_unknown_tournament_witness :
  (@getBucketedTournamentRpc sample_engine unit (mkContext (Some "me"%string))
     (quiet_host failing_pages [] [] small_population) "request" (mkState tt [])).1
  = Thrown errInternal.
Proof.
  rewrite (@getBucketedTournamentRpc_unknown_tournament sample_engine unit
             (mkContext (Some "me"%string))
             (quiet_host failing_pages [] [] small_population) "request" tt tt tt
             "me" _ (JStr "live_event_2") (JNum (Fin 32)) []
             eq_refl ltac:(discriminate) eq_refl eq_refl eq_refl eq_refl eq_refl).
  reflexivity.
Defined.

(** X14: a regeneration that fails denies the view.  When the sampler
    throws, nothing is written and no listing is requested; when the
    sampler answers but the storage write throws, the write has been
    attempted once and no listing is requested; both end in
    [errInternal]. *)
Theorem getBucketedTournamentRpc_regeneration_failures `{Engine} {W : Type}
    (ctx : Context) (nk : Nakama W) (payload : string) (w : W) (self : string)
    (tid limit : JsVal) (objects : list StorageObject) (t0 : Tournament) (w2 : W) :
  reaches_test ctx nk payload w self tid limit objects t0 w2 ->
  stale (stored_bucket objects) t0 = true ->
  let run := getBucketedTournamentRpc ctx nk payload (mkState w []) in
  (forall (e : Error) (w3 : W),
     usersGetRandom nk 15 w2 = (Abrupt e, w3) ->
     run.1 = Thrown errInternal /\ host run.2 = w3 /\
     storage_writes (trace run.2) = [] /\ cohorts (trace run.2) = []) /\
  (forall (users : list User) (e : Error) (w3 w4 : W),
     usersGetRandom nk 15 w2 = (Normal users, w3) ->
     storageWrite nk
       (bucket_write self {| resetTimeUnix := endActive t0;
                             userIds := user_userId <$> users |}) w3
       = (Abrupt e, w4) ->
     run.1 = Thrown errInternal /\ host run.2 = w4 /\
     length (storage_writes (trace run.2)) = 1%nat /\ cohorts (trace run.2) = []).
Proof.
  intros (message & ts & w1 & Hctx & Hself & Hparse & Hid & Hlimit & Hread & Hget) Hstale.
  simpl. unfold getBucketedTournamentRpc. rewrite Hctx, (truthy_nonempty _ Hself). simpl.
  run_unfold. simpl. rewrite Hparse. simpl. rewrite Hid. simpl. rewrite Hlimit. simpl.
  rewrite Hread. simpl. rewrite Hget. simpl. rewrite Hstale. simpl.
  unfold bucketSize. split.
  - intros e w3 ->. simpl. done.
  - intros users e w3 w4 -> . simpl. intros ->. simpl. done.
Qed.

Lemma getBucketedTournamentRpc_regeneration_failures_witness :
  let run := @getBucketedTournamentRpc sample_engine unit (mkContext (Some "me"%string))
               (refusing_storage [] small_population) "request" (mkState tt []) in
  run.1 = Thrown errInternal /\ cohorts (trace run.2) = [].
Proof.
  assert (Hreach : @reaches_test sample_engine unit (mkContext (Some "me"%string))
            (refusing_storage [] small_population) "request" tt "me"
            (JStr "live_event_2") (JNum (Fin 32)) [] sample_tournament tt).
  { eexists _, _, _. repeat split; try reflexivity. discriminate. }
  destruct (@getBucketedTournamentRpc_regeneration_failures sample_engine unit
              _ _ _ _ _ _ _ _ _ _ Hreach eq_refl) as [_ Hwrite].
  destruct (Hwrite small_population (GoError "storage unavailable") tt tt
              eq_refl eq_refl) as (Hout & _ & _ & Hcohorts).
  split; [exact Hout | exact Hcohorts].
Defined.

(** X15: whatever the payload and the collaborators do, one call of
    [getBucketedTournamentRpc] reads storage at most once, samples at most
    once, writes at most once and requests at most one listing.  Its read
    and its write address the caller's own bucket only (collection
    [buckets], key [bucket], the caller as owner, both permissions 0), a
    write comes only after a sampling of 15, and the cohort of a listing
    always ends with the caller's id. *)
Theorem getBucketedTournamentRpc_discipline `{Engine} {W : Type} (ctx : Context)
    (nk : Nakama W) (payload : string) (w : W) :
  let tr := trace (getBucketedTournamentRpc ctx nk payload (mkState w [])).2 in
  (length (storage_reads tr) <= 1 /\ length (samplings tr) <= 1 /\
   length (storage_writes tr) <= 1 /\ length (cohorts tr) <= 1)%nat /\
  (forall self : string,
     userId ctx = Some self ->
     (forall rs, rs ∈ storage_reads tr -> rs = bucket_read self) /\
     (forall ws, ws ∈ storage_writes tr ->
        samplings tr = [15] /\ exists b, ws = bucket_write self b) /\
     (forall c, c ∈ cohorts tr -> exists members, c = members ++ [self])) /\
  (userId ctx = None -> tr = []).
Proof.
  simpl. unfold getBucketedTournamentRpc.
  destruct (userId ctx) as [self |] eqn:Hctx; simpl;
    [| split; [simpl; lia |]; split; [done | done]].
  destruct self as [| a self']; simpl;
    [split; [simpl; lia |]; split; [| done];
     intros ? [= <-]; (split; [| split]); by intros ? ?%elem_of_nil |].
  set (self := String a self') in *.
  run_unfold. simpl. unfold first_tournament, listing, bucketSize.
  run_cases;
    (split; [simpl; lia |]; split; [| done];
     intros ? [= <-]; (split; [| split]);
     intros ? Hin; simpl in Hin;
     repeat (apply elem_of_cons in Hin as [-> | Hin]; eauto);
     try (by apply elem_of_nil in Hin)).
Qed.

Lemma getBucketedTournamentRpc_discipline_witness :
  exists members : list string,
    ["ann"; "me"; "zed"; "me"]%string = members ++ ["me"%string].
Proof.
  destruct (@getBucketedTournamentRpc_discipline sample_engine unit
              (mkContext (Some "me"%string)) (bucket_host [] small_population)
              "request" tt) as (_ & Hself & _).
  destruct (Hself "me"%string eq_refl) as (_ & _ & Hcohort).
  apply Hcohort. vm_compute. left.
Defined.

(** X16: when [getBucketedTournamentRpc] returns, its result is the
    answer of the listing with nothing but the owner records touched: the
    records and both cursors are passed on as they are, and the owner
    records, if there are any, have been sorted into descending order of
    score and ranked 1, 2, ... in that order. *)
Theorem getBucketedTournamentRpc_result `{Engine} {W : Type} (ctx : Context)
    (nk : Nakama W) (payload : string) (s s' : State W) (result : RecordList) :
  getBucketedTournamentRpc ctx nk payload s = (Returned result, s') ->
  exists (tid limit : JsVal) (owners : list string) (w : W) (answer : RecordList),
    tournamentRecordsList nk tid owners limit None None w
      = (Normal (Some answer), host s') /\
    records result = records answer /\
    nextCursor result = nextCursor answer /\
    prevCursor result = prevCursor answer /\
    ownerRecords result = SortRecords (ownerRecords answer) /\
    (forall sorted,
       ownerRecords result = Some sorted ->
       descending sorted /\ rank <$> sorted = ranks_upto (length sorted)).
Proof.
  unfold getBucketedTournamentRpc.
  destruct (userId ctx) as [self |]; [| done].
  destruct self as [| a self']; simpl; [done |].
  set (self := String a self') in *.
  run_unfold. simpl. unfold first_tournament, listing.
  run_cases; intros [= <- <-]; simpl;
    (eexists _, _, _, _, _; split; [eassumption |];
     repeat (split; [reflexivity |]); apply SortRecords_sorted).
Qed.

Lemma getBucketedTournamentRpc_result_witness :
  exists result s',
    @getBucketedTournamentRpc sample_engine unit (mkContext (Some "me"%string))
      (bucket_host [] small_population) "request" (mkState tt [])
      = (Returned result, s') /\
    records result = Some sample_board /\ ownerRecords result = None.
Proof.
  eexists _, _. split; [reflexivity |].
  destruct (@getBucketedTournamentRpc_result sample_engine unit
              (mkContext (Some "me"%string)) (bucket_host [] small_population)
              "request" (mkState tt []) _ _ eq_refl)
    as (tid & limit & owners & w & answer & Hcall & Hrec & _ & _ & Hown & _).
  injection Hcall as <-. split; [exact Hrec | exact Hown].
Defined.

(** X18: where fewer than fifteen users can be drawn, the bucket never
    settles: on a host that keeps what is written, a first call by a
    player without a bucket samples and writes, and the call after a call
    that has sampled samples again and writes the same short bucket
    again. *)
Theorem short_population_never_settles `{Engine}
    (store : gmap string UserBucketStorageObject) (users : list User)
    (t0 : Tournament) (ts : list Tournament) (self payload : string)
    (message tid limit : JsVal) :
  self <> EmptyString ->
  JSON_parse payload = Normal message ->
  message.["id"] = Normal tid -> message.["limit"] = Normal limit ->
  (length users < 15)%nat ->
  let nk := store_host (t0 :: ts) users in
  let ctx := mkContext (Some self) in
  let fresh := {| resetTimeUnix := endActive t0; userIds := user_userId <$> users |} in
  let first := getBucketedTournamentRpc ctx nk payload (mkState store []) in
  let second := getBucketedTournamentRpc ctx nk payload (mkState (host first.2) []) in
  (store !! self = None -> samplings (trace first.2) = [15]) /\
  (samplings (trace first.2) = [15] ->
   storage_writes (trace first.2) = [bucket_write self fresh] /\
   samplings (trace second.2) = [15] /\
   storage_writes (trace second.2) = [bucket_write self fresh]).
Proof.
  intros Hself Hparse Hid Hlimit Husers nk ctx fresh first second.
  subst first second ctx. unfold getBucketedTournamentRpc. cbn [userId].
  rewrite !(truthy_nonempty _ Hself). subst nk. simpl.
  run_unfold. simpl. rewrite Hparse. simpl. rewrite Hid. simpl. rewrite Hlimit. simpl.
  assert (Htake : forall n : nat, n = 15%nat -> take n users = users).
  { intros n ->. apply take_ge. lia. }
  assert (Hshort : stale fresh t0 = true).
  { apply stale_iff. right. subst fresh. simpl. rewrite length_fmap. lia. }
  assert (Hempty : stale {| resetTimeUnix := 0; userIds := [] |} t0 = true).
  { apply stale_iff. right. simpl. lia. }
  destruct (store !! self) as [bucket |] eqn:Hlookup; simpl.
  - split; [done |].
    destruct (stale bucket t0) eqn:Hstale; simpl; [| done].
    intros _. rewrite lookup_insert_eq. simpl.
    erewrite !Htake by reflexivity. fold fresh. rewrite Hshort. simpl. done.
  - rewrite Hempty. simpl. split; [done |].
    intros _. rewrite lookup_insert_eq. simpl.
    erewrite !Htake by reflexivity. fold fresh. rewrite Hshort. simpl. done.
Qed.

Lemma short_population_never_settles_witness :
  let nk := store_host [sample_tournament] small_population in
  let ctx := mkContext (Some "me"%string) in
  let first := @getBucketedTournamentRpc sample_engine _ ctx nk "request" (mkState ∅ []) in
  let second := @getBucketedTournamentRpc sample_engine _ ctx nk "request"
                  (mkState (host first.2) []) in
  samplings (trace first.2) = [15] /\ samplings (trace second.2) = [15].
Proof.
  destruct (@short_population_never_settles sample_engine ∅ small_population
              sample_tournament [] "me" "request" _ (JStr "live_event_2")
              (JNum (Fin 32)) ltac:(discriminate) eq_refl eq_refl eq_refl
              ltac:(simpl; lia)) as [Hfirst Hnext].
  split; [by apply Hfirst |].
  by destruct (Hnext (Hfirst eq_refl)) as (_ & Hsecond & _).
Defined.

Lemma second_call_reuses_witness :
  let nk := store_host [sample_tournament] full_population in
  let ctx := mkContext (Some "me"%string) in
  let first := @getBucketedTournamentRpc sample_engine _ ctx nk "request" (mkState ∅ []) in
  let second := @getBucketedTournamentRpc sample_engine _ ctx nk "request"
                  (mkState (host first.2) []) in
  storage_writes (trace second.2) = [] /\
  cohorts (trace second.2) = [userIds full_bucket ++ ["me"%string]].
Proof.
  destruct (@second_call_reuses sample_engine ∅ full_population
              sample_tournament [] "me" "request" _ (JStr "live_event_2")
              (JNum (Fin 32)) ltac:(discriminate) eq_refl eq_refl eq_refl
              ltac:(simpl; lia)) as (_ & Hwrites & Hcohorts).
  split; [exact Hwrites |]. rewrite Hcohorts. reflexivity.
Defined.

(** ** More on the distribution of the rewards *)

Section DistributionMore.
Context `{Engine} {W : Type}.
Implicit Types (nk : Nakama W) (s : State W) (b : Batches).

Lemma notification_batches_app (tr1 tr2 : list Call) :
  notification_batches (tr1 ++ tr2) = notification_batches tr1 ++ notification_batches tr2.
Proof. apply omap_app. Qed.

Lemma notification_batches_requests (tournamentId : string) (reset : Z)
    (pages : list (string * list LeaderboardRecord)) :
  notification_batches (requests tournamentId reset pages) = [].
Proof. induction pages as [| p pages IH]; simpl; done. Qed.

Lemma forEach_matched (rewards : JsVal) (t : Tournament) (l : list LeaderboardRecord) b b' :
  matched t b ->
  forEach (rewardRecord rewards t) l b = Normal b' ->
  matched t b'.
Proof.
  revert b. induction l as [| r l IH]; intros b Hb; simpl.
  - by intros [= <-].
  - destruct (rewardRecord rewards t r b) as [b1 |] eqn:Hr; simpl; [| done].
    apply IH. unfold rewardRecord in Hr.
    destruct (getReward rewards (rank r) (score r)) as [[rw |] |]; simpl in Hr;
      try done; injection Hr as <-; [| done].
    destruct Hb as [Hgrants Hforms]. split; simpl.
    + by rewrite !fmap_app, Hgrants.
    + apply Forall_app. split; [done |]. by repeat constructor.
Qed.

Lemma forEach_notice (rewards : JsVal) (t : Tournament) (l : list LeaderboardRecord) b b' :
  forEach (rewardRecord rewards t) l b = Normal b' ->
  notifications b' = notifications b ++ omap (notice rewards t) l.
Proof.
  revert b. induction l as [| r l IH]; intros b; simpl.
  - intros [= <-]. by rewrite app_nil_r.
  - destruct (rewardRecord rewards t r b) as [b1 |] eqn:Hr; simpl; [| done].
    intros Hl. rewrite (IH _ Hl). unfold rewardRecord in Hr. unfold notice at 2.
    destruct (getReward rewards (rank r) (score r)) as [[rw |] |]; simpl in Hr;
      try done; injection Hr as <-; simpl; [| done].
    by rewrite <- app_assoc.
Qed.

Lemma getReward_scored (rewards : JsVal) (rank score : Z) (o : option Reward) :
  getReward rewards rank score = Normal o -> (is_Some o <-> score <> 0).
Proof.
  destruct (Z.eq_dec score 0) as [-> | Hscore].
  - intros [= <-]. split; [by intros [? ?] | done].
  - rewrite getReward_tier by done.
    destruct (rewards.[tier_of_rank rank]) as [tier |]; simpl; [| done].
    destruct (tier.["coins"]) as [c |]; simpl; [| done].
    intros [= <-]. split; [done | eauto].
Qed.

Lemma payout_owners (rewards : JsVal) (l : list LeaderboardRecord) :
  forallb (decides rewards) l = true ->
  wallet_userId <$> omap (payout rewards) l = ownerId <$> List.filter scored l.
Proof.
  induction l as [| r l IH]; simpl; [done |].
  rewrite andb_true_iff. intros [Hr Hl]. specialize (IH Hl).
  unfold decides in Hr. unfold payout at 1. unfold scored at 1.
  destruct (getReward rewards (rank r) (score r)) as [o |] eqn:Hget; [| done].
  pose proof (getReward_scored _ _ _ _ Hget) as Hscored.
  destruct o as [rw |]; simpl.
  - assert (score r <> 0) by (apply Hscored; eauto).
    destruct (Z.eqb_spec (score r) 0); [done |]. simpl. f_equal. exact IH.
  - destruct (Z.eqb_spec (score r) 0) as [_ | Hne]; simpl; [exact IH |].
    apply Hscored in Hne. by destruct Hne.
Qed.

Lemma scanRecords_notifications (fuel : nat) nk (rewards : JsVal) (t : Tournament)
    (reset : Z) (cursor : option string) b s :
  notification_batches (trace (scanRecords fuel nk rewards t reset cursor b s).2)
    = notification_batches (trace s).
Proof.
  revert cursor b s. induction fuel as [| fuel IH]; intros [c |] b s; simpl; try done.
  run_unfold. simpl.
  destruct (tournamentRecordsList nk _ _ _ _ _ (host s)) as [[[answer |] | e] w]; simpl.
  - destruct (records answer) as [rs |]; simpl.
    + destruct (forEach (rewardRecord rewards t) rs b) as [b1 |]; simpl.
      * rewrite IH. simpl. by rewrite notification_batches_app, app_nil_r.
      * by rewrite notification_batches_app, app_nil_r.
    + rewrite IH. simpl. by rewrite notification_batches_app, app_nil_r.
  - by rewrite notification_batches_app, app_nil_r.
  - by rewrite notification_batches_app, app_nil_r.
Qed.

#[local] Arguments scanRecords : simpl never.

(** What the [try] block submits: nothing, the wallet batch alone, or the
    wallet batch and then the notifications of the same scan. *)
Lemma distribution_batches (fuel : nat) nk (rewards : JsVal) (t : Tournament) (reset : Z)
    (w : W) (tr : list Call) :
  wallet_batches tr = [] -> notification_batches tr = [] ->
  let s' := (distribution fuel nk rewards t reset (mkState w tr)).2 in
  notification_batches (trace s') = [] \/
  exists l b w1,
    forEach (rewardRecord rewards t) l (mkBatches [] []) = Normal b /\
    (walletsUpdate nk (walletUpdates b) true w1).1 = Normal tt /\
    wallet_batches (trace s') = [(walletUpdates b, true)] /\
    notification_batches (trace s') = [notifications b].
Proof.
  intros Hw0 Hn0. simpl. unfold distribution. run_unfold. simpl.
  destruct (clock nk w) as [t0 w0]. simpl.
  lazymatch goal with
  | |- context [scanRecords ?f ?n ?r ?t ?x ?c ?b ?s0] =>
      pose proof (scanRecords_wallet f n r t x c b s0) as Hw;
      pose proof (scanRecords_notifications f n r t x c b s0) as Hn;
      pose proof (scanRecords_returned f n r t x c b s0) as Hr;
      destruct (scanRecords f n r t x c b s0) as [[b' | e |] s1]
  end; simpl in *;
    rewrite wallet_batches_app, Hw0 in Hw; rewrite notification_batches_app, Hn0 in Hn;
    simpl in Hw, Hn; [| by left | by left].
  destruct (Hr _ _ eq_refl) as [l Hl].
  destruct (walletsUpdate nk _ _ (host s1)) as [[[] | e] w2] eqn:Hwallet; simpl;
    [| left; by rewrite notification_batches_app, Hn].
  right. exists l, b', (host s1). split; [done |]. split; [by rewrite Hwallet |].
  destruct (notificationsSend nk _ w2) as [[[] | e] w3]; simpl.
  - destruct (clock nk w3) as [t1 w4]. simpl.
    destruct (metricsTimerRecord nk _ _ _ w4) as [[[] | e] w5]; simpl;
      rewrite !wallet_batches_app, !notification_batches_app, Hw, Hn; simpl; done.
  - rewrite !wallet_batches_app, !notification_batches_app, Hw, Hn; simpl; done.
Qed.

Lemma distributeEventRewards_batches (fuel : nat) (ctx : Context) nk (t : Tournament)
    (end_ reset : Z) (w : W) :
  let rewards := default JUndefined (metadata t !! "rewards") in
  let tr := trace (distributeEventRewards fuel ctx nk t end_ reset (mkState w [])).2 in
  notification_batches tr = [] \/
  exists l b w1,
    forEach (rewardRecord rewards t) l (mkBatches [] []) = Normal b /\
    (walletsUpdate nk (walletUpdates b) true w1).1 = Normal tt /\
    wallet_batches tr = [(walletUpdates b, true)] /\
    notification_batches tr = [notifications b].
Proof.
  simpl. rewrite distributeEventRewards_unfold. simpl.
  destruct (truthy _); simpl; [| by left].
  pose proof (distribution_batches fuel nk (default JUndefined (metadata t !! "rewards"))
                t reset w [LoggerDebug "Distributing event rewards for %s" [id t]]
                eq_refl eq_refl) as Hcases. simpl in Hcases.
  destruct (distribution _ _ _ _ _ _) as [[[] | e |] s']; simpl in *; try done.
  rewrite wallet_batches_app, notification_batches_app. simpl. rewrite !app_nil_r.
  done.
Qed.

(** The wallet batch of a run along the pages of an exhausting listing,
    the reward lookup throwing on no record. *)
Lemma distributeEventRewards_pays (fuel : nat) (ctx : Context) nk (t : Tournament)
    (end_ reset : Z) (w w0 w1 : W) (t0 : Z)
    (pages : list (string * list LeaderboardRecord)) :
  let rewards := default JUndefined (metadata t !! "rewards") in
  truthy rewards = true ->
  clock nk w = (t0, w0) ->
  Pages nk (id t) reset (Some EmptyString) w0 pages w1 ->
  (length pages <= fuel)%nat ->
  forallb (decides rewards) (leaderboard pages) = true ->
  wallet_batches (trace (distributeEventRewards fuel ctx nk t end_ reset (mkState w [])).2)
    = [(omap (payout rewards) (leaderboard pages), true)].
Proof.
  simpl. intros Htruthy Hclock Hpages Hfuel Hdecides.
  rewrite distributeEventRewards_unfold. simpl. rewrite Htruthy.
  destruct (forEach_decides _ t _ (mkBatches [] []) Hdecides) as [b Hb].
  destruct (distribution_pages fuel nk _ t reset
              (mkState w [LoggerDebug "Distributing event rewards for %s" [id t]])
              t0 w0 w1 pages b Hclock Hpages Hfuel Hb)
    as (r & s' & rest & -> & Hr & Htrace & Hreq & Hwal).
  rewrite (forEach_payout _ _ _ _ _ Hb) in Htrace. simpl in Htrace.
  assert (Hs' : wallet_batches (trace s')
                = [(omap (payout (default JUndefined (metadata t !! "rewards")))
                      (leaderboard pages), true)]).
  { rewrite Htrace.
    repeat (rewrite wallet_batches_app || rewrite wallet_batches_cons).
    rewrite wallet_batches_requests, Hwal. done. }
  destruct r as [[] | e |]; simpl; try done.
  rewrite wallet_batches_app, Hs'. done.
Qed.

End DistributionMore.

(** X19: payout is all or nothing.  When the reward lookup throws on a
    record of the leaderboard (a tier that the table lacks, say), the scan
    stops at that record and the hook returns after one error line: no
    wallet batch and no notification batch is submitted, not even for the
    records before it, and the pages after it are not requested. *)
Theorem missing_tier_pays_nobody `{Engine} {W : Type} (fuel : nat)
    (ctx : Context) (nk : Nakama W) (t : Tournament) (end_ reset : Z)
    (w w0 w1 : W) (t0 : Z) (pages : list (string * list LeaderboardRecord)) :
  let rewards := default JUndefined (metadata t !! "rewards") in
  let run := distributeEventRewards fuel ctx nk t end_ reset (mkState w []) in
  truthy rewards = true ->
  clock nk w = (t0, w0) ->
  Pages nk (id t) reset (Some EmptyString) w0 pages w1 ->
  (length pages <= fuel)%nat ->
  forallb (decides rewards) (leaderboard pages) = false ->
  run.1 = Returned tt /\
  wallet_batches (trace run.2) = [] /\
  notification_batches (trace run.2) = [] /\
  exists (k : nat) (msg : string),
    trace run.2 =
      [LoggerDebug "Distributing event rewards for %s" [id t]; DateNow]
      ++ requests (id t) reset (take k pages)
      ++ [LoggerError "Error while distributing rewards: %s" [msg]].
Proof.
  simpl. intros Htruthy Hclock Hpages Hfuel Hdecides.
  rewrite distributeEventRewards_unfold. simpl. rewrite Htruthy.
  destruct (forEach_undecided _ t _ (mkBatches [] []) Hdecides) as [e Hb].
  destruct (distribution_aborts fuel nk _ t reset
              (mkState w [LoggerDebug "Distributing event rewards for %s" [id t]])
              t0 w0 w1 pages e Hclock Hpages Hfuel Hb) as (k & w'' & ->).
  simpl. split; [done |]. split; [| split].
  - repeat (rewrite wallet_batches_app || rewrite wallet_batches_cons).
    by rewrite wallet_batches_requests.
  - rewrite !notification_batches_app, notification_batches_requests. done.
  - exists k, (message e). simpl. by rewrite <- ?app_assoc.
Qed.

Lemma missing_tier_pays_nobody_witness :
  let run := @distributeEventRewards sample_engine unit 3 (mkContext None)
               (quiet_host (stable_pages 2 sample_board) [] [] [])
               (sample_event first_only_rewards) 0 259200 (mkState tt []) in
  run.1 = Returned tt /\ wallet_batches (trace run.2) = [] /\
  notification_batches (trace run.2) = [].
Proof.
  eassert (Hpages : Pages (quiet_host (stable_pages 2 sample_board) [] [] [])
             "live_event_1" 259200 (Some EmptyString) tt _ tt).
  { eapply (Pages_page _ _ _ _ tt tt tt); [reflexivity |].
    eapply (Pages_page _ _ _ _ tt tt tt); [reflexivity |].
    eapply (Pages_page _ _ _ _ tt tt tt); [reflexivity |].
    apply Pages_exhausted. }
  destruct (@missing_tier_pays_nobody sample_engine unit 3 (mkContext None)
              (quiet_host (stable_pages 2 sample_board) [] [] [])
              (sample_event first_only_rewards) 0 259200 tt tt tt 0 _
              eq_refl eq_refl Hpages ltac:(simpl; lia) eq_refl)
    as (Hret & Hwal & Hnot & _).
  split; [exact Hret |]. split; [exact Hwal | exact Hnot].
Defined.

(** X20: whatever the collaborators do, a run of
    [distributeEventRewards] sends at most one notification batch, and
    only after a wallet batch that the wallet has accepted; the two
    batches list the same players with the same rewards in the same
    order, and every notification is persistent, has code 1 and subject
    [event_reward], and names the tournament's title. *)
Theorem notifications_match_wallets `{Engine} {W : Type} (fuel : nat)
    (ctx : Context) (nk : Nakama W) (t : Tournament) (end_ reset : Z) (w : W) :
  let tr := trace (distributeEventRewards fuel ctx nk t end_ reset (mkState w [])).2 in
  (length (notification_batches tr) <= 1)%nat /\
  (forall ns : list NotificationRequest,
     ns ∈ notification_batches tr ->
     exists (ups : list WalletUpdate) (w1 : W),
       wallet_batches tr = [(ups, true)] /\
       (walletsUpdate nk ups true w1).1 = Normal tt /\
       wallet_grant <$> ups = notified_grant <$> ns /\
       Forall (well_formed_notice (title t)) ns).
Proof.
  simpl.
  destruct (distributeEventRewards_batches fuel ctx nk t end_ reset w)
    as [Hnone | (l & b & w1 & Hb & Hok & Hwal & Hnot)]; simpl in *.
  - rewrite Hnone. split; [simpl; lia |]. by intros ns ?%elem_of_nil.
  - rewrite Hnot, Hwal. split; [simpl; lia |].
    intros ns ->%list_elem_of_singleton.
    assert (Hm : matched t b).
    { eapply forEach_matched; [| exact Hb]. by split; [| constructor]. }
    destruct Hm as [Hgrants Hforms]. by exists (walletUpdates b), w1.
Qed.

Lemma notifications_match_wallets_witness :
  let tr := trace (@distributeEventRewards sample_engine unit 1 (mkContext None)
                     (quiet_host (stable_pages 100 sample_board) [] [] [])
                     (sample_event sample_rewards) 0 259200 (mkState tt [])).2 in
  exists (ns : list NotificationRequest) (ups : list WalletUpdate),
    notification_batches tr = [ns] /\ wallet_batches tr = [(ups, true)] /\
    wallet_grant <$> ups = notified_grant <$> ns /\ length ns = 4%nat.
Proof.
  simpl.
  destruct (@notifications_match_wallets sample_engine unit 1 (mkContext None)
              (quiet_host (stable_pages 100 sample_board) [] [] [])
              (sample_event sample_rewards) 0 259200 tt) as [_ Hmatch].
  eexists _, _. split; [reflexivity |].
  edestruct Hmatch as (ups & w1 & Hwal & _ & Hgrants & _); [vm_compute; left |].
  split; [reflexivity |]. split; [| reflexivity].
  vm_compute in Hwal. injection Hwal as <-. exact Hgrants.
Defined.

(** X21: when the wallet refuses the batch, nobody is notified: on a
    host whose [walletsUpdate] always throws, no run of
    [distributeEventRewards] sends a notification batch. *)
Theorem failed_wallets_send_no_notifications `{Engine} {W : Type} (fuel : nat)
    (ctx : Context) (nk : Nakama W) (t : Tournament) (end_ reset : Z) (w : W) :
  (forall ups flag w1, exists e w2, walletsUpdate nk ups flag w1 = (Abrupt e, w2)) ->
  notification_batches
    (trace (distributeEventRewards fuel ctx nk t end_ reset (mkState w [])).2) = [].
Proof.
  intros Hrefuse.
  destruct (distributeEventRewards_batches fuel ctx nk t end_ reset w)
    as [Hnone | (l & b & w1 & _ & Hok & _)]; simpl in *; [done |].
  destruct (Hrefuse (walletUpdates b) true w1) as (e & w2 & Hcall).
  by rewrite Hcall in Hok.
Qed.

Lemma failed_wallets_send_no_notifications_witness :
  let run := @distributeEventRewards sample_engine unit 1 (mkContext None)
               (refusing_wallets sample_board) (sample_event sample_rewards)
               0 259200 (mkState tt []) in
  notification_batches (trace run.2) = [] /\ length (wallet_batches (trace run.2)) = 1%nat.
Proof.
  split; [| reflexivity].
  apply (@failed_wallets_send_no_notifications sample_engine unit).
  intros ups flag w1. by exists (GoError "ledger unavailable"), w1.
Defined.

(** X22: with a table on which the lookup throws for no record, the
    players in the wallet batch are exactly the players of the records
    with a score other than 0, in leaderboard order: a player is paid
    once for each of their scored records, and a player who has not scored
    is not paid, whatever their rank. *)
Theorem scored_records_are_paid `{Engine} {W : Type} (fuel : nat)
    (ctx : Context) (nk : Nakama W) (t : Tournament) (end_ reset : Z)
    (w w0 w1 : W) (t0 : Z) (pages : list (string * list LeaderboardRecord)) :
  let rewards := default JUndefined (metadata t !! "rewards") in
  let run := distributeEventRewards fuel ctx nk t end_ reset (mkState w []) in
  truthy rewards = true ->
  clock nk w = (t0, w0) ->
  Pages nk (id t) reset (Some EmptyString) w0 pages w1 ->
  (length pages <= fuel)%nat ->
  forallb (decides rewards) (leaderboard pages) = true ->
  exists ups : list WalletUpdate,
    wallet_batches (trace run.2) = [(ups, true)] /\
    wallet_userId <$> ups = ownerId <$> List.filter scored (leaderboard pages).
Proof.
  simpl. intros Htruthy Hclock Hpages Hfuel Hdecides.
  eexists. split.
  - by eapply distributeEventRewards_pays.
  - by apply payout_owners.
Qed.

Lemma scored_records_are_paid_witness :
  let run := @distributeEventRewards sample_engine unit 3 (mkContext None)
               (quiet_host (stable_pages 2 sample_board) [] [] [])
               (sample_event sample_rewards) 0 259200 (mkState tt []) in
  exists ups,
    wallet_batches (trace run.2) = [(ups, true)] /\
    wallet_userId <$> ups = ["ada"; "bob"; "cy"; "dee"]%string.
Proof.
  eassert (Hpages : Pages (quiet_host (stable_pages 2 sample_board) [] [] [])
             "live_event_1" 259200 (Some EmptyString) tt _ tt).
  { eapply (Pages_page _ _ _ _ tt tt tt); [reflexivity |].
    eapply (Pages_page _ _ _ _ tt tt tt); [reflexivity |].
    eapply (Pages_page _ _ _ _ tt tt tt); [reflexivity |].
    apply Pages_exhausted. }
  destruct (@scored_records_are_paid sample_engine unit 3 (mkContext None)
              (quiet_host (stable_pages 2 sample_board) [] [] [])
              (sample_event sample_rewards) 0 259200 tt tt tt 0 _
              eq_refl eq_refl Hpages ltac:(simpl; lia) eq_refl)
    as (ups & Hwal & Howners).
  exists ups. split; [exact Hwal | exact Howners].
Defined.

(** X23: the run in which everything succeeds.  Along the pages of an
    exhausting listing, with a table on which the lookup throws for no
    record and collaborators that return, [distributeEventRewards] makes
    these calls and no others, in this order: the start log, the clock,
    one request per page, one wallet batch with the payouts of the whole
    leaderboard, one notification batch with their notifications, the log
    of the number of rewarded players, the clock again, and the timer
    [rewardDistributionElapsedTimeSec] with the difference of the two
    clock readings. *)
Theorem distributeEventRewards_success `{Engine} {W : Type} (fuel : nat)
    (ctx : Context) (nk : Nakama W) (t : Tournament) (end_ reset : Z)
    (w w0 w1 w2 w3 w4 w5 : W) (t0 t1 : Z)
    (pages : list (string * list LeaderboardRecord)) :
  let rewards := default JUndefined (metadata t !! "rewards") in
  let ups := omap (payout rewards) (leaderboard pages) in
  let ns := omap (notice rewards t) (leaderboard pages) in
  truthy rewards = true ->
  clock nk w = (t0, w0) ->
  Pages nk (id t) reset (Some EmptyString) w0 pages w1 ->
  (length pages <= fuel)%nat ->
  forallb (decides rewards) (leaderboard pages) = true ->
  walletsUpdate nk ups true w1 = (Normal tt, w2) ->
  notificationsSend nk ns w2 = (Normal tt, w3) ->
  clock nk w3 = (t1, w4) ->
  metricsTimerRecord nk "rewardDistributionElapsedTimeSec" ∅ (t1 - t0) w4
    = (Normal tt, w5) ->
  distributeEventRewards fuel ctx nk t end_ reset (mkState w []) =
    (Returned tt,
     mkState w5
       ([LoggerDebug "Distributing event rewards for %s" [id t]; DateNow]
        ++ requests (id t) reset pages
        ++ [ WalletsUpdate ups true;
             NotificationsSend ns;
             LoggerDebug "%d players received rewards from the event %s"
               [pretty (length ups); id t];
             DateNow;
             MetricsTimerRecord "rewardDistributionElapsedTimeSec" ∅ (t1 - t0) ])).
Proof.
  simpl. intros Htruthy Hclock Hpages Hfuel Hdecides Hwallet Hsend Hclock' Htimer.
  rewrite distributeEventRewards_unfold. simpl. rewrite Htruthy.
  destruct (forEach_decides _ t _ (mkBatches [] []) Hdecides) as [b Hb].
  pose proof (forEach_payout _ _ _ _ _ Hb) as Hups.
  pose proof (forEach_notice _ _ _ _ _ Hb) as Hns. simpl in Hups, Hns.
  unfold distribution. run_unfold. simpl. rewrite Hclock. simpl.
  rewrite (scanRecords_pages _ _ _ _ _ _ _ _ _ _ _ _ Hpages Hfuel Hb). simpl.
  rewrite Hups, Hwallet. simpl. rewrite Hns, Hsend. simpl. rewrite Hclock'. simpl.
  rewrite Htimer. simpl. by rewrite <- !app_assoc.
Qed.

Lemma distributeEventRewards_success_witness :
  (@distributeEventRewards sample_engine unit 3 (mkContext None)
     (quiet_host (stable_pages 2 sample_board) [] [] [])
     (sample_event sample_rewards) 0 259200 (mkState tt [])).1 = Returned tt.
Proof.
  eassert (Hpages : Pages (quiet_host (stable_pages 2 sample_board) [] [] [])
             "live_event_1" 259200 (Some EmptyString) tt _ tt).
  { eapply (Pages_page _ _ _ _ tt tt tt); [reflexivity |].
    eapply (Pages_page _ _ _ _ tt tt tt); [reflexivity |].
    eapply (Pages_page _ _ _ _ tt tt tt); [reflexivity |].
    apply Pages_exhausted. }
  rewrite (@distributeEventRewards_success sample_engine unit 3 (mkContext None)
             (quiet_host (stable_pages 2 sample_board) [] [] [])
             (sample_event sample_rewards) 0 259200 tt tt tt tt tt tt tt 0 0 _
             eq_refl eq_refl Hpages ltac:(simpl; lia) eq_refl eq_refl eq_refl
             eq_refl eq_refl).
  reflexivity.
Defined.

(** X24: the table that the hook reads is the one of the request that
    created the event.  For a tournament whose metadata is what
    [serverCreateLiveEventRpc] handed to the registry, the rewards that
    [distributeEventRewards] looks up are the [rewards] of the request's
    message; and when the request had none (or a falsy one), the hook
    returns after its two log lines without calling a collaborator. *)
Theorem created_event_rewards `{Engine} {W W' : Type} (ctx : Context)
    (nk : Nakama W) (payload : string) (w : W) (msg : JsVal)
    (args : TournamentCreate) (t : Tournament) :
  truthy (userId_value ctx) = false ->
  JSON_parse payload = Normal msg -> msg <> JNull -> msg <> JUndefined ->
  args ∈ creations (trace (serverCreateLiveEventRpc ctx nk payload (mkState w [])).2) ->
  metadata t = create_metadata args ->
  default JUndefined (metadata t !! "rewards") = property msg "rewards" /\
  (truthy (property msg "rewards") = false ->
   forall (fuel : nat) (ctx' : Context) (nk' : Nakama W') (end_ reset : Z)
          (s : State W'),
     distributeEventRewards fuel ctx' nk' t end_ reset s =
       (Returned tt,
        mkState (host s)
          (trace s ++ [ LoggerDebug "Distributing event rewards for %s" [id t];
                        LoggerDebug "No rewards are defined for %s" [id t] ]))).
Proof.
  intros Hctx Hparse Hnull Hundef Hargs Hmeta.
  destruct (serverCreateLiveEventRpc_accepts ctx nk payload (mkState w []) Hctx)
    as [_ Hgood].
  simpl in Hgood. rewrite (Hgood msg Hparse Hnull Hundef) in Hargs.
  assert (Hcreated : args = creation_of msg).
  { destruct (tournamentCreate nk (creation_of msg) w) as [[[] | e] w']; simpl in Hargs;
      by apply list_elem_of_singleton in Hargs. }
  assert (Hrewards : default JUndefined (metadata t !! "rewards") = property msg "rewards").
  { rewrite Hmeta, Hcreated. simpl. by rewrite lookup_singleton_eq. }
  split; [exact Hrewards |].
  intros Hfalsy fuel ctx' nk' end_ reset s.
  rewrite distributeEventRewards_unfold. simpl. rewrite Hrewards, Hfalsy.
  by rewrite <- app_assoc.
Qed.

Lemma created_event_rewards_witness :
  @distributeEventRewards sample_engine unit 0 (mkContext None)
    (bucket_host [] [])
    {| id := "live_event_2"; title := "Live event";
       metadata := {[ "rewards" := JUndefined ]}; endActive := 0 |}
    0 0 (mkState tt [])
  = (Returned tt,
     mkState tt [ LoggerDebug "Distributing event rewards for %s" ["live_event_2"%string];
                  LoggerDebug "No rewards are defined for %s" ["live_event_2"%string] ]).
Proof.
  set (msg := JObj {[ "id" := JStr "live_event_2"; "limit" := JNum (Fin 32) ]}).
  assert (Hin : creation_of msg ∈
            creations (trace (@serverCreateLiveEventRpc sample_engine unit
                                (mkContext None) (bucket_host [] []) "request"
                                (mkState tt [])).2)) by (vm_compute; left).
  exact (proj2 (@created_event_rewards sample_engine unit unit (mkContext None)
                  (bucket_host [] []) "request" tt msg (creation_of msg)
                  {| id := "live_event_2"; title := "Live event";
                     metadata := {[ "rewards" := JUndefined ]}; endActive := 0 |}
                  eq_refl eq_refl ltac:(discriminate) ltac:(discriminate) Hin eq_refl)
           eq_refl 0%nat (mkContext None) (bucket_host [] []) 0 0 (mkState tt [])).
Defined.
